(** * NorthstarAutograder: the attendee form of [app.py]

    A shallow embedding of the Streamlit script [app.py] and the proofs of
    what its specification says about it.

    - [Py]: Python strings as lists of Unicode code points, and the built-ins
      the script calls ([str.strip], [str.replace], [str.islower], ...).
    - [Re]: the [re] module on the three patterns of the script, as a
      backtracking matcher that lists the ends of the matches in the order
      Python tries them.
    - The four helper functions of the script, and the script body as a
      computation that renders Streamlit elements and may stop early.
    - Then the lemmas, and one theorem for each claim of the specification
      (C1 to C10). *)

From Stdlib Require Import String Ascii Arith NArith List Bool Lia.
From ExtLib Require Import Structures.Monad.
Import ListNotations.

(* ===================================================================== *)
(** ** Python strings and the built-ins used by the script *)
(* ===================================================================== *)

Module Py.

Local Open Scope N_scope.

Definition char := N.
Definition str := list char.

(** An ASCII literal of the source, as a Python string. *)
Definition of_string (s : string) : str :=
  map N_of_ascii (list_ascii_of_string s).

(** Truthiness of a string: [if s:] holds for the non-empty ones. *)
Definition truthy (s : str) : bool :=
  match s with [] => false | _ :: _ => true end.

(** [value or default], where [value] may be [None]. *)
Definition or_else (value : option str) (default : str) : str :=
  match value with
  | Some s => if truthy s then s else default
  | None => default
  end.

Definition str_eqb (a b : str) : bool :=
  if list_eq_dec N.eq_dec a b then true else false.

(** [Py_UNICODE_ISSPACE]: the code points for which [str.isspace] holds, and
    which [str.strip] removes and [\s] matches in a [str] pattern. *)
Definition isspace (c : char) : bool :=
  ((0x09 <=? c) && (c <=? 0x0D)) || ((0x1C <=? c) && (c <=? 0x20))
  || (c =? 0x85) || (c =? 0xA0) || (c =? 0x1680)
  || ((0x2000 <=? c) && (c <=? 0x200A))
  || (c =? 0x2028) || (c =? 0x2029) || (c =? 0x202F) || (c =? 0x205F)
  || (c =? 0x3000).

Fixpoint drop_while (p : char -> bool) (s : str) : str :=
  match s with
  | [] => []
  | c :: t => if p c then drop_while p t else s
  end.

(** [str.strip()] with no argument: the slice between the first and the last
    character that is not whitespace. *)
Definition lstrip (s : str) : str := drop_while isspace s.
Definition rstrip (s : str) : str := rev (drop_while isspace (rev s)).
Definition strip (s : str) : str := rstrip (lstrip s).

Fixpoint is_prefix (p s : str) : bool :=
  match p, s with
  | [], _ => true
  | a :: p', b :: s' => (a =? b) && is_prefix p' s'
  | _ :: _, [] => false
  end.

(** [s.replace(old, new)] for a non-empty [old]: scan from the left, and at
    each occurrence of [old] emit [new] and skip the occurrence. [skip]
    counts the characters of the current occurrence still to pass over. *)
Fixpoint replace_from (old new : str) (skip : nat) (s : str) : str :=
  match s with
  | [] => []
  | c :: t =>
      match skip with
      | S k => replace_from old new k t
      | O => if is_prefix old s
             then new ++ replace_from old new (length old - 1)%nat t
             else c :: replace_from old new 0%nat t
      end
  end.

(** With an empty [old], Python inserts [new] before every character and at
    the end. *)
Definition replace (s old new : str) : str :=
  match old with
  | [] => new ++ flat_map (fun c => c :: new) s
  | _ :: _ => replace_from old new 0%nat s
  end.

(** The part of Python's Unicode character database outside ASCII: which
    code points from 128 on are alphabetic, lowercase, uppercase and
    titlecase. The tables belong to the interpreter, not to the script; the
    script is verified for any contents of them. *)
Record unicode_data := UnicodeData {
  ud_alpha : char -> bool;
  ud_lower : char -> bool;
  ud_upper : char -> bool;
  ud_title : char -> bool
}.

Definition ascii_upper (c : char) : bool := (0x41 <=? c) && (c <=? 0x5A).
Definition ascii_lower (c : char) : bool := (0x61 <=? c) && (c <=? 0x7A).

Section Classes.
Variable ucd : unicode_data.

Definition ch_isalpha (c : char) : bool :=
  if c <? 128 then ascii_upper c || ascii_lower c else ud_alpha ucd c.
Definition ch_islower (c : char) : bool :=
  if c <? 128 then ascii_lower c else ud_lower ucd c.
Definition ch_isupper (c : char) : bool :=
  if c <? 128 then ascii_upper c else ud_upper ucd c.
Definition ch_istitle (c : char) : bool :=
  if c <? 128 then false else ud_title ucd c.

(** The loop of [str.islower]: no uppercase or titlecase character, and
    at least one lowercase one. *)
Fixpoint islower_loop (cased : bool) (s : str) : bool :=
  match s with
  | [] => cased
  | c :: t =>
      if ch_isupper c || ch_istitle c then false
      else islower_loop (cased || ch_islower c) t
  end.

(** [s.islower()]; CPython answers a string of length one from the
    character's lowercase flag alone. *)
Definition islower (s : str) : bool :=
  match s with
  | [c] => ch_islower c
  | _ => islower_loop false s
  end.

Fixpoint isupper_loop (cased : bool) (s : str) : bool :=
  match s with
  | [] => cased
  | c :: t =>
      if ch_islower c || ch_istitle c then false
      else isupper_loop (cased || ch_isupper c) t
  end.

Definition isupper (s : str) : bool :=
  match s with
  | [c] => ch_isupper c
  | _ => isupper_loop false s
  end.

(** [s.isalpha()]: non-empty and every character alphabetic. *)
Definition isalpha (s : str) : bool :=
  truthy s && forallb ch_isalpha s.
End Classes.

End Py.

Abbreviation str := Py.str.
Notation "'py' s" := (Py.of_string s%string) (at level 9, s at level 0).

(* ===================================================================== *)
(** ** The [re] module on the patterns of the script *)
(* ===================================================================== *)

Module Re.

(** A member of a character set [[...]]. *)
Inductive set_item :=
| LITERAL (c : Py.char)
| RANGE (lo hi : Py.char)
| CATEGORY_SPACE.

(** A matcher of exactly one character: a literal, or a (negated) set.
    [\s] parses to the set with the one member [CATEGORY_SPACE]. *)
Inductive single :=
| Lit (c : Py.char)
| In (negate : bool) (items : list set_item).

(** The operations the three patterns are made of. *)
Inductive op :=
| One (x : single)          (* x *)
| MaxRepeat1 (x : single)   (* x+, greedy *)
| AtBeginning               (* ^ *)
| AtEnd.                    (* $ *)

Definition pattern := list op.

Definition item_matches (i : set_item) (c : Py.char) : bool :=
  match i with
  | LITERAL a => (c =? a)%N
  | RANGE lo hi => ((lo <=? c) && (c <=? hi))%N
  | CATEGORY_SPACE => Py.isspace c
  end.

Definition single_matches (x : single) (c : Py.char) : bool :=
  match x with
  | Lit a => (c =? a)%N
  | In negate items => xorb negate (existsb (fun i => item_matches i c) items)
  end.

(** What is left of [s] after one or more characters matching [x], the
    longest repetition first: the order in which the greedy [+] tries. *)
Fixpoint repeat_tails (x : single) (s : str) : list str :=
  match s with
  | c :: t => if single_matches x c then repeat_tails x t ++ [t] else []
  | [] => []
  end.

(** [$] without [re.MULTILINE]: at the end of the string, or just before a
    newline that ends it. *)
Definition at_end (s : str) : bool :=
  match s with
  | [] => true
  | [c] => (c =? 0x0A)%N
  | _ => false
  end.

(** [ends p bos s]: every way [p] matches a prefix of [s], each given by the
    rest of [s] after the match, in the order the backtracking matcher finds
    them. [bos] tells whether [s] starts at the beginning of the subject. *)
Fixpoint ends (p : pattern) (bos : bool) (s : str) : list str :=
  match p with
  | [] => [s]
  | One x :: p' =>
      match s with
      | c :: t => if single_matches x c then ends p' false t else []
      | [] => []
      end
  | MaxRepeat1 x :: p' => flat_map (ends p' false) (repeat_tails x s)
  | AtBeginning :: p' => if bos then ends p' bos s else []
  | AtEnd :: p' => if at_end s then ends p' bos s else []
  end.

(** [p.match(s)]: the first match at the start of [s], as the rest of [s]
    after it; [None] when there is none. *)
Definition match_ (p : pattern) (s : str) : option str :=
  hd_error (ends p true s).

(** [re.fullmatch(p, s)]: the first match that ends at the end of [s]. *)
Definition fullmatch (p : pattern) (s : str) : option str :=
  find (fun rest => negb (Py.truthy rest)) (ends p true s).

(** [re.sub(p, repl, s)] for a plain replacement string: scan from the left;
    where [p] matches, emit [repl] and pass over the match, elsewhere copy the
    character. [skip] counts the characters of the current match still to
    pass over. An empty match emits [repl] and copies the character. *)
Fixpoint sub_from (p : pattern) (repl : str) (bos : bool) (skip : nat)
    (s : str) : str :=
  match s with
  | [] =>
      match skip, ends p bos [] with
      | O, _ :: _ => repl
      | _, _ => []
      end
  | c :: t =>
      match skip with
      | S k => sub_from p repl false k t
      | O =>
          match ends p bos s with
          | rest :: _ =>
              let n := length s - length rest in
              match n with
              | O => repl ++ c :: sub_from p repl false 0 t
              | S k => repl ++ sub_from p repl false k t
              end
          | [] => c :: sub_from p repl false 0 t
          end
      end
  end.

Definition sub (p : pattern) (repl s : str) : str :=
  sub_from p repl true 0 s.

End Re.

(* ===================================================================== *)
(** ** The helper functions of [app.py] *)
(* ===================================================================== *)

(** [EMAIL_RE = re.compile(r"^[^\s@]+@[^\s@]+\.[^\s@]+$")] *)
Definition not_space_or_at : Re.single :=
  Re.In true [Re.CATEGORY_SPACE; Re.LITERAL 0x40%N].

Definition EMAIL_RE : Re.pattern :=
  [Re.AtBeginning;
   Re.MaxRepeat1 not_space_or_at; Re.One (Re.Lit 0x40%N);
   Re.MaxRepeat1 not_space_or_at; Re.One (Re.Lit 0x2E%N);
   Re.MaxRepeat1 not_space_or_at;
   Re.AtEnd].

(** [r"\s+"] *)
Definition SPACES : Re.pattern := [Re.MaxRepeat1 (Re.In false [Re.CATEGORY_SPACE])].

(** [r"[A-Z]\s+"] *)
Definition INITIAL_THEN_SPACES : Re.pattern :=
  [Re.One (Re.In false [Re.RANGE 0x41%N 0x5A%N]);
   Re.MaxRepeat1 (Re.In false [Re.CATEGORY_SPACE])].

Definition quote : Py.char := 0x27%N.

(** [def sql_string_literal(value)] *)
Definition sql_string_literal (value : str) : str :=
  [quote] ++ Py.replace value [quote] [quote; quote] ++ [quote].

(** [def normalize_space(value)]; [value] may be [None]. *)
Definition normalize_space (value : option str) : str :=
  Re.sub SPACES (py " ") (Py.strip (Py.or_else value [])).

Definition is_some {A} (o : option A) : bool :=
  match o with Some _ => true | None => false end.

(** [def is_allowed_single_initial(raw_value)]; [raw_value] may be [None]. *)
Definition is_allowed_single_initial (raw_value : option str) : bool :=
  match raw_value with
  | None => false
  | Some raw => is_some (Re.fullmatch INITIAL_THEN_SPACES raw)
  end.

Section Casing.
Variable ucd : Py.unicode_data.

(** [def looks_like_bad_name_case(value)]; [ch] ranges over the
    one-character strings of [v]. *)
Definition looks_like_bad_name_case (value : str) : bool :=
  let v := normalize_space (Some value) in
  let letters := filter (fun ch => Py.isalpha ucd [ch]) v in
  if length letters <=? 1 then false
  else forallb (fun ch => Py.islower ucd [ch]) letters
       || forallb (fun ch => Py.isupper ucd [ch]) letters.
End Casing.

(* ===================================================================== *)
(** ** Streamlit: rendered elements and scripts that may stop *)
(* ===================================================================== *)

(** What a run of the script puts on the page after the form. The download
    button carries the text whose UTF-8 encoding it offers. *)
Inductive element :=
| Info (body icon : str)
| Error (body : str)
| Divider
| Subheader (body : str)
| Code (body : str)
| DownloadButton (label data file_name mime : str).

(** A script renders elements in order and either returns a value or has
    called [st.stop()], after which nothing more is run. *)
Definition Script (A : Type) : Type := (list element * option A)%type.

#[export] Instance Monad_Script : Monad Script := {
  ret := fun _ a => ([], Some a);
  bind := fun _ _ c f =>
    match c with
    | (w, Some a) => let (w', r) := f a in (w ++ w', r)
    | (w, None) => (w, None)
    end
}.

Import MonadNotation.
Local Open Scope monad_scope.

Definition render (e : element) : Script unit := ([e], Some tt).
Definition st_stop {A} : Script A := ([], None).
Definition st_info (body icon : str) := render (Info body icon).
Definition st_error (body : str) := render (Error body).
Definition st_divider := render Divider.
Definition st_subheader (body : str) := render (Subheader body).
Definition st_code (body : str) := render (Code body).
Definition st_download_button (label data file_name mime : str) :=
  render (DownloadButton label data file_name mime).

(** [for x in xs: body(x)] *)
Fixpoint for_each {A} (xs : list A) (body : A -> Script unit) : Script unit :=
  match xs with
  | [] => ret tt
  | x :: xs' => body x ;; for_each xs' body
  end.

(** [if cond: body], falling through otherwise. *)
Definition when (cond : bool) (body : Script unit) : Script unit :=
  if cond then body else ret tt.

Definition rendered {A} (s : Script A) : list element := fst s.
Definition finished {A} (s : Script A) : bool := is_some (snd s).

(* ===================================================================== *)
(** ** The script *)
(* ===================================================================== *)

Definition info_icon : str := [0x2139%N; 0xFE0F%N].
Definition newline : str := [0x0A%N].

Definition msg_email_required := py "Email is required.".
Definition msg_email_invalid :=
  py "Email doesn't look valid (expected something like name@company.com).".
Definition msg_first_required := py "First name is required.".
Definition msg_last_required := py "Last name is required.".
Definition msg_first_case :=
  py "First name cannot be all lowercase or all uppercase.".
Definition msg_middle_case :=
  py "Middle name cannot be all lowercase or all uppercase.".
Definition msg_last_case :=
  py "Last name cannot be all lowercase or all uppercase.".
Definition single_char_msg :=
  py "A single character is not allowed, please input a space after to proceed.".

(** [greeting_call_sql], from the four values it interpolates. *)
Definition greeting_call_sql (email first_sql middle_sql last_sql : str) : str :=
  py "select util_db.public.greeting("
  ++ sql_string_literal email ++ py ", "
  ++ sql_string_literal first_sql ++ py ", "
  ++ sql_string_literal middle_sql ++ py ", "
  ++ sql_string_literal last_sql
  ++ py ");".

(** The lines of the workshop script before the greeting statement. *)
Definition script_lines : list str := [
    py "--!jinja";
    py "use role accountadmin;";
    py "";
    py "create or replace api integration dora_api_integration ";
    py "api_provider = aws_api_gateway ";
    py "api_aws_role_arn = 'arn:aws:iam::321463406630:role/snowflakeLearnerAssumedRole' ";
    py "enabled = true ";
    py "api_allowed_prefixes = ('https://awy6hshxy4.execute-api.us-west-2.amazonaws.com/dev/edu_dora');";
    py "";
    py "create database if not exists util_db;";
    py "use database util_db;";
    py "use schema public;";
    py "";
    py "create or replace external function util_db.public.grader(        ";
    py " step varchar     ";
    py " , passed boolean     ";
    py " , actual integer     ";
    py " , expected integer    ";
    py " , description varchar) ";
    py " returns variant ";
    py " api_integration = dora_api_integration ";
    py " context_headers = (current_timestamp,current_account, current_statement, current_account_name) ";
    py " as 'https://awy6hshxy4.execute-api.us-west-2.amazonaws.com/dev/edu_dora/grader'  ";
    py ";  ";
    py "";
    py "select grader(step, (actual = expected), actual, expected, description) as graded_results from (SELECT";
    py " 'AUTO_GRADER_IS_WORKING' as step";
    py " ,(select 123) as actual";
    py " ,123 as expected";
    py " ,'The Snowflake auto-grader has been successfully set up in your account!' as description";
    py ");";
    py "";
    py "create or replace external function util_db.public.greeting(";
    py "      email varchar";
    py "    , firstname varchar";
    py "    , middlename varchar";
    py "    , lastname varchar)";
    py "returns variant";
    py "api_integration = dora_api_integration";
    py "context_headers = (current_timestamp, current_account, current_statement, current_account_name) ";
    py "as 'https://awy6hshxy4.execute-api.us-west-2.amazonaws.com/dev/edu_dora/greeting'";
    py "; ";
    py "";
    py "";
    py "-- Be sure to follow the rules your session leader presents";
    py "-- Format your name CORRECTLY (do not use all lower case)";
    py "-- If you do not have a middle name, use an empty string '' ; do not use " ++ [0x22%N] ++ py "null" ++ [0x22%N] ++ py " in place of any values";
    py "-- Double-check your email. You must use the same email for the greeting as you used to register"
  ].

Definition script_head : str :=
  Eval vm_compute in flat_map (fun l => l ++ newline) script_lines.

(** [sql_out]: the f-string, stripped, and a newline. *)
Definition sql_out (greeting_call_sql : str) : str :=
  Py.strip (script_head ++ greeting_call_sql ++ newline) ++ newline.

Section App.
Variable ucd : Py.unicode_data.

(** The list [errors] of the presence and shape checks, lines 90-99. *)
Definition errors (email first last : str) : list str :=
  let errors := [] in
  let errors :=
    if negb (Py.truthy email) then errors ++ [msg_email_required]
    else if negb (is_some (Re.match_ EMAIL_RE email))
         then errors ++ [msg_email_invalid]
         else errors in
  let errors :=
    if negb (Py.truthy first) then errors ++ [msg_first_required]
    else errors in
  let errors :=
    if negb (Py.truthy last) then errors ++ [msg_last_required]
    else errors in
  errors.

(** The list [name_case_errors], lines 106-121. *)
Definition name_case_errors (first middle_raw middle last : str) : list str :=
  let name_case_errors := [] in
  let name_case_errors :=
    if (length first =? 1) && Py.islower ucd first
    then name_case_errors ++ [msg_first_case] else name_case_errors in
  let name_case_errors :=
    if Py.truthy middle_raw && (length middle =? 1) && Py.islower ucd middle
    then name_case_errors ++ [msg_middle_case] else name_case_errors in
  let name_case_errors :=
    if (length last =? 1) && Py.islower ucd last
    then name_case_errors ++ [msg_last_case] else name_case_errors in
  let name_case_errors :=
    if looks_like_bad_name_case ucd first
    then name_case_errors ++ [msg_first_case] else name_case_errors in
  let name_case_errors :=
    if Py.truthy middle && looks_like_bad_name_case ucd middle
    then name_case_errors ++ [msg_middle_case] else name_case_errors in
  let name_case_errors :=
    if looks_like_bad_name_case ucd last
    then name_case_errors ++ [msg_last_case] else name_case_errors in
  name_case_errors.

(** The three conditions of lines 131, 133 and 135. *)
Definition single_char_first_or_last (name name_raw : str) : bool :=
  (length name =? 1) && negb (Py.islower ucd name)
  && negb (is_allowed_single_initial (Some name_raw)).

Definition single_char_middle (middle middle_raw : str) : bool :=
  Py.truthy middle_raw && (length middle =? 1)
  && negb (Py.islower ucd middle)
  && negb (is_allowed_single_initial (Some middle_raw)).

(** The list [single_char_errors], lines 129-136. *)
Definition single_char_errors
    (first first_raw middle middle_raw last last_raw : str) : list str :=
  let single_char_errors := [] in
  let single_char_errors :=
    if single_char_first_or_last first first_raw
    then single_char_errors ++ [single_char_msg] else single_char_errors in
  let single_char_errors :=
    if single_char_middle middle middle_raw
    then single_char_errors ++ [single_char_msg] else single_char_errors in
  let single_char_errors :=
    if single_char_first_or_last last last_raw
    then single_char_errors ++ [single_char_msg] else single_char_errors in
  single_char_errors.

Definition nonempty {A} (l : list A) : bool :=
  match l with [] => false | _ :: _ => true end.

(** The script from line 71 on, run on the values the form widgets
    returned: whether the form was submitted and the four text inputs.
    (The page header and the form itself, lines 8-69, are rendered the same
    on every run and are not listed.) *)
Definition app (submitted : bool) (email first_raw middle_raw last_raw : str)
    : Script unit :=
  when (negb submitted)
    (st_info (py "Fill out the form and click **Generate SQL**.") info_icon ;;
     st_stop) ;;
  let email := normalize_space (Some email) in
  let first := normalize_space (Some first_raw) in
  let middle := normalize_space (Some middle_raw) in
  let last := normalize_space (Some last_raw) in
  let first_sql := Py.or_else (Some first_raw) [] in
  let middle_sql := Py.or_else (Some middle_raw) [] in
  let last_sql := Py.or_else (Some last_raw) [] in
  let errors := errors email first last in
  when (nonempty errors) (for_each errors st_error ;; st_stop) ;;
  let name_case_errors := name_case_errors first middle_raw middle last in
  when (nonempty name_case_errors)
    (for_each name_case_errors st_error ;; st_stop) ;;
  let single_char_errors :=
    single_char_errors first first_raw middle middle_raw last last_raw in
  when (nonempty single_char_errors)
    (st_error single_char_msg ;; st_stop) ;;
  let greeting_call_sql :=
    greeting_call_sql email first_sql middle_sql last_sql in
  let sql_out := sql_out greeting_call_sql in
  st_divider ;;
  st_subheader (py "Generated Snowflake SQL") ;;
  st_code sql_out ;;
  st_info
    (py "Copy the script above, paste it into a **Snowflake worksheet**, and run it. "
     ++ py "You can also download it as a `.sql` file below.")
    info_icon ;;
  st_download_button (py "Download as .sql") sql_out
    (py "workshop_greeting.sql") (py "text/sql").
End App.

(** A character database with nothing cased or alphabetic outside ASCII, to
    run the script on ASCII inputs. *)
Definition ascii_only : Py.unicode_data :=
  Py.UnicodeData (fun _ => false) (fun _ => false) (fun _ => false)
                 (fun _ => false).

(* ===================================================================== *)
(** ** Notions used to state what the script does *)
(* ===================================================================== *)

(** The first character, if any, is not whitespace. *)
Definition starts_clean (s : str) : bool :=
  match s with [] => true | c :: _ => negb (Py.isspace c) end.

(** The last character, if any, is not whitespace. *)
Fixpoint ends_clean (s : str) : bool :=
  match s with
  | [] => true
  | [c] => negb (Py.isspace c)
  | _ :: t => ends_clean t
  end.

(** Every maximal run of whitespace replaced by one space; [in_run] tells
    whether the character before was whitespace. *)
Fixpoint squeeze (in_run : bool) (s : str) : str :=
  match s with
  | [] => []
  | c :: t =>
      if Py.isspace c
      then (if in_run then squeeze true t else 0x20%N :: squeeze true t)
      else c :: squeeze false t
  end.

(** Normal form: every whitespace character is one space standing before a
    character that is not whitespace. *)
Fixpoint spaced (s : str) : bool :=
  match s with
  | [] => true
  | c :: t =>
      if Py.isspace c
      then (c =? 0x20)%N && Py.truthy t && starts_clean t && spaced t
      else spaced t
  end.

Definition normalized (s : str) : bool := starts_clean s && spaced s.

(** The normalizer in the order the specification words it: every maximal
    run of whitespace becomes one space, then both ends are trimmed; a missing
    value gives the empty string. *)
Definition collapse_then_trim (raw : option str) : str :=
  match raw with
  | None => []
  | Some s => Py.strip (squeeze false s)
  end.

(** One or more characters, none of them whitespace or an at sign. *)
Definition email_word (w : str) : Prop :=
  w <> [] /\ forall c, List.In c w -> Py.isspace c = false /\ c <> 0x40%N.

(** The shape the spec describes: a word, an at sign, a word, a dot, a
    word. *)
Definition email_shape (s : str) : Prop :=
  exists local domain tld,
    email_word local /\ email_word domain /\ email_word tld
    /\ s = local ++ [0x40%N] ++ domain ++ [0x2E%N] ++ tld.

(** The shape the spec describes for the single initial: one uppercase
    ASCII letter, then one or more whitespace characters. *)
Definition initial_shape (s : str) : Prop :=
  exists c ws,
    s = c :: ws /\ (0x41 <= c <= 0x5A)%N
    /\ ws <> [] /\ forall w, List.In w ws -> Py.isspace w = true.

(** The alphabetic characters of a name. *)
Definition letters (ucd : Py.unicode_data) (v : str) : list Py.char :=
  filter (Py.ch_isalpha ucd) v.

(** Line 109 and its like: a one-character name that is lowercase. *)
Definition single_lowercase (ucd : Py.unicode_data) (name : str) : bool :=
  (length name =? 1) && Py.islower ucd name.

(** Every single quote of [v] written twice. *)
Definition doubled (v : str) : str :=
  flat_map (fun c => if (c =? quote)%N then [quote; quote] else [c]) v.

(** Reading a literal back, as a SQL parser does: after the opening quote,
    two quotes stand for one and a single quote closes the literal. The
    result is the value and the text after the literal. *)
Fixpoint read_body (s : str) : option (str * str) :=
  match s with
  | [] => None
  | c :: t =>
      if (c =? quote)%N
      then match t with
           | d :: t' =>
               if (d =? quote)%N
               then option_map (fun vr => (quote :: fst vr, snd vr))
                               (read_body t')
               else Some ([], t)
           | [] => Some ([], [])
           end
      else option_map (fun vr => (c :: fst vr, snd vr)) (read_body t)
  end.

Definition read_literal (s : str) : option (str * str) :=
  match s with
  | c :: t => if (c =? quote)%N then read_body t else None
  | [] => None
  end.

Definition skip_prefix (p s : str) : option str :=
  if Py.is_prefix p s then Some (skipn (length p) s) else None.

(** Reading the four values back from a greeting statement. *)
Definition read_greeting (s : str) : option (str * str * str * str) :=
  match skip_prefix (py "select util_db.public.greeting(") s with
  | None => None
  | Some s =>
  match read_literal s with
  | None => None
  | Some (email, s) =>
  match skip_prefix (py ", ") s with
  | None => None
  | Some s =>
  match read_literal s with
  | None => None
  | Some (first, s) =>
  match skip_prefix (py ", ") s with
  | None => None
  | Some s =>
  match read_literal s with
  | None => None
  | Some (middle, s) =>
  match skip_prefix (py ", ") s with
  | None => None
  | Some s =>
  match read_literal s with
  | None => None
  | Some (last, s) =>
      if Py.str_eqb s (py ");") then Some (email, first, middle, last)
      else None
  end end end end end end end end.

(** What a successful run renders. *)
Definition success_page (sql_out : str) : list element :=
  [Divider;
   Subheader (py "Generated Snowflake SQL");
   Code sql_out;
   Info (py "Copy the script above, paste it into a **Snowflake worksheet**, and run it. "
         ++ py "You can also download it as a `.sql` file below.") info_icon;
   DownloadButton (py "Download as .sql") sql_out
     (py "workshop_greeting.sql") (py "text/sql")].

Definition is_error (e : element) : bool :=
  match e with Error _ => true | _ => false end.

(** The three lists as the script computes them from the raw inputs. *)
Definition presence_of (email_raw first_raw last_raw : str) : list str :=
  errors (normalize_space (Some email_raw)) (normalize_space (Some first_raw))
         (normalize_space (Some last_raw)).

Definition casing_of (ucd : Py.unicode_data)
    (first_raw middle_raw last_raw : str) : list str :=
  name_case_errors ucd (normalize_space (Some first_raw)) middle_raw
    (normalize_space (Some middle_raw)) (normalize_space (Some last_raw)).

Definition single_of (ucd : Py.unicode_data)
    (first_raw middle_raw last_raw : str) : list str :=
  single_char_errors ucd (normalize_space (Some first_raw)) first_raw
    (normalize_space (Some middle_raw)) middle_raw
    (normalize_space (Some last_raw)) last_raw.

(** The greeting statement the script generates for a submission. *)
Definition greeting_of (email_raw first_raw middle_raw last_raw : str) : str :=
  greeting_call_sql (normalize_space (Some email_raw))
    first_raw middle_raw last_raw.

(** A character that is not whitespace. *)
Definition nonspace (c : Py.char) : bool := negb (Py.isspace c).

(** A raw name that raises neither a casing nor a single-character error:
    its normalized value passes the casing rule and, when it is one
    character long, the raw value is the allowed single initial. *)
Definition name_accepted (ucd : Py.unicode_data) (raw : str) : Prop :=
  let name := normalize_space (Some raw) in
  looks_like_bad_name_case ucd name = false
  /\ (length name = 1 -> is_allowed_single_initial (Some raw) = true).

(* ===================================================================== *)
(** ** Whitespace: [strip] and the collapsing of runs *)
(* ===================================================================== *)

Section Whitespace.
Import Py.

Lemma drop_while_app p (a b : str) :
  drop_while p (a ++ b) =
  match drop_while p a with
  | [] => drop_while p b
  | r => r ++ b
  end.
Proof.
  induction a as [|c a IH]; simpl.
  - reflexivity.
  - destruct (p c); [exact IH | reflexivity].
Qed.

Lemma drop_while_all p (s : str) :
  forallb p s = true -> drop_while p s = [].
Proof.
  induction s as [|c t IH]; simpl; [reflexivity|].
  destruct (p c); simpl; [exact IH | discriminate].
Qed.

Lemma drop_while_nil_all p (s : str) :
  drop_while p s = [] -> forallb p s = true.
Proof.
  induction s as [|c t IH]; simpl; [reflexivity|].
  destruct (p c); simpl; [exact IH | discriminate].
Qed.

Lemma drop_while_starts (s : str) :
  starts_clean (drop_while isspace s) = true.
Proof.
  induction s as [|c t IH]; simpl; [reflexivity|].
  destruct (isspace c) eqn:E; [exact IH | simpl; now rewrite E].
Qed.

Lemma lstrip_clean (s : str) : starts_clean s = true -> lstrip s = s.
Proof.
  destruct s as [|c t]; simpl; [reflexivity|].
  unfold lstrip; simpl. now destruct (isspace c).
Qed.

(** [rstrip], read from the left. *)
Lemma rstrip_cons c (t : str) :
  rstrip (c :: t) =
  match rstrip t with
  | [] => if isspace c then [] else [c]
  | r => c :: r
  end.
Proof.
  unfold rstrip; simpl. rewrite drop_while_app.
  destruct (drop_while isspace (rev t)) as [|d r] eqn:E; simpl.
  - now destruct (isspace c).
  - rewrite rev_app_distr; simpl.
    destruct (rev r ++ [d]) eqn:E'; [now destruct (rev r)| reflexivity].
Qed.

Lemma rstrip_nil : rstrip [] = [].
Proof. reflexivity. Qed.

Lemma rstrip_cons_nonspace c (t : str) :
  isspace c = false -> rstrip (c :: t) = c :: rstrip t.
Proof.
  intros E. rewrite rstrip_cons, E. now destruct (rstrip t).
Qed.

Lemma rstrip_ends_clean (s : str) : ends_clean (rstrip s) = true.
Proof.
  induction s as [|c t IH]; [reflexivity|].
  rewrite rstrip_cons.
  destruct (rstrip t) as [|d r] eqn:E.
  - destruct (isspace c) eqn:Ec; simpl; [reflexivity | now rewrite Ec].
  - exact IH.
Qed.

Lemma rstrip_clean (s : str) : ends_clean s = true -> rstrip s = s.
Proof.
  induction s as [|c t IH]; [reflexivity|].
  intros H. rewrite rstrip_cons.
  destruct t as [|d t'].
  - simpl in H. rewrite rstrip_nil. now destruct (isspace c).
  - rewrite IH by exact H. reflexivity.
Qed.

Lemma rstrip_all (s : str) : forallb isspace s = true -> rstrip s = [].
Proof.
  induction s as [|c t IH]; [reflexivity|]; simpl.
  intros H. apply andb_prop in H as [Hc Ht].
  rewrite rstrip_cons, (IH Ht), Hc. reflexivity.
Qed.

Lemma rstrip_starts (s : str) :
  starts_clean s = true -> starts_clean (rstrip s) = true.
Proof.
  destruct s as [|c t]; [reflexivity|]; simpl.
  intros H. apply negb_true_iff in H.
  rewrite rstrip_cons_nonspace by exact H. simpl. now rewrite H.
Qed.

Lemma strip_starts (s : str) : starts_clean (strip s) = true.
Proof. apply rstrip_starts, drop_while_starts. Qed.

Lemma strip_ends (s : str) : ends_clean (strip s) = true.
Proof. apply rstrip_ends_clean. Qed.

Lemma strip_clean (s : str) :
  starts_clean s = true -> ends_clean s = true -> strip s = s.
Proof.
  intros H1 H2. unfold strip. rewrite (lstrip_clean _ H1).
  now apply rstrip_clean.
Qed.

Lemma strip_all (s : str) : forallb isspace s = true -> strip s = [].
Proof.
  intros H. unfold strip, lstrip. now rewrite (drop_while_all _ _ H).
Qed.

Lemma ends_clean_all (s : str) :
  ends_clean s = true -> forallb isspace s = true -> s = [].
Proof.
  induction s as [|c t IH]; [reflexivity|].
  intros H1 H2. simpl in H2. apply andb_prop in H2 as [Hc Ht].
  destruct t as [|d t'].
  - simpl in H1. now rewrite Hc in H1.
  - specialize (IH H1 Ht). discriminate.
Qed.

Lemma strip_nil_all (s : str) : strip s = [] -> forallb isspace s = true.
Proof.
  unfold strip. intros H.
  assert (A : forall u, rstrip u = [] -> forallb isspace u = true).
  { induction u as [|c t IH]; [reflexivity|].
    rewrite rstrip_cons. destruct (rstrip t) eqn:E; [|discriminate].
    destruct (isspace c) eqn:Ec; [|discriminate].
    intros _. simpl. rewrite Ec. now apply IH. }
  apply A in H.
  pose proof (drop_while_starts s) as S. unfold lstrip in H.
  destruct (drop_while isspace s) as [|c t] eqn:E.
  - now apply drop_while_nil_all.
  - simpl in S, H. apply andb_prop in H as [Hc _]. now rewrite Hc in S.
Qed.
End Whitespace.

Section Squeeze.
Import Py.

Lemma squeeze_true_drop (s : str) :
  squeeze true s = squeeze false (drop_while isspace s).
Proof.
  induction s as [|c t IH]; simpl; [reflexivity|].
  destruct (isspace c) eqn:E; simpl; [exact IH | now rewrite E].
Qed.

Lemma squeeze_nil_all b (s : str) :
  squeeze b s = [] -> forallb isspace s = true.
Proof.
  revert b. induction s as [|c t IH]; intros b; simpl; [reflexivity|].
  destruct (isspace c); simpl; [|discriminate].
  destruct b; [apply IH | discriminate].
Qed.

Lemma squeeze_true_starts (s : str) : starts_clean (squeeze true s) = true.
Proof.
  induction s as [|c t IH]; simpl; [reflexivity|].
  destruct (isspace c) eqn:E; [exact IH | simpl; now rewrite E].
Qed.

Lemma squeeze_starts (s : str) :
  starts_clean s = true -> starts_clean (squeeze false s) = true.
Proof.
  destruct s as [|c t]; simpl; [reflexivity|].
  intros H. apply negb_true_iff in H. rewrite H. simpl. now rewrite H.
Qed.

(** A string in normal form is left as it is. *)
Lemma squeeze_spaced (s : str) : spaced s = true -> squeeze false s = s.
Proof.
  induction s as [|c t IH]; simpl; [reflexivity|].
  destruct (isspace c) eqn:E.
  - intros H. apply andb_prop in H as [H Hs].
    apply andb_prop in H as [H Hc]. apply andb_prop in H as [He Ht].
    apply N.eqb_eq in He. subst c. f_equal.
    rewrite squeeze_true_drop.
    destruct t as [|d t']; [discriminate|].
    simpl in Hc. apply negb_true_iff in Hc.
    simpl drop_while. rewrite Hc. now apply IH.
  - intros H. f_equal. now apply IH.
Qed.

(** Collapsing a string that does not end in whitespace gives a normal
    form. *)
Lemma spaced_squeeze b (s : str) :
  ends_clean s = true -> spaced (squeeze b s) = true.
Proof.
  revert b. induction s as [|c t IH]; intros b H; [reflexivity|].
  assert (Ht : ends_clean t = true) by (destruct t; [reflexivity | exact H]).
  simpl. destruct (isspace c) eqn:E.
  - destruct b; [now apply IH|].
    simpl. rewrite (IH true Ht), squeeze_true_starts.
    destruct (squeeze true t) eqn:Q; [|reflexivity].
    apply squeeze_nil_all in Q. rewrite (ends_clean_all _ Ht Q) in H.
    simpl in H. now rewrite E in H.
  - simpl. rewrite E. now apply IH.
Qed.

Lemma normalized_squeeze_strip (s : str) :
  normalized (squeeze false (strip s)) = true.
Proof.
  unfold normalized.
  rewrite squeeze_starts by apply strip_starts.
  rewrite spaced_squeeze by apply strip_ends. reflexivity.
Qed.

Lemma spaced_ends_clean (s : str) : spaced s = true -> ends_clean s = true.
Proof.
  induction s as [|c t IH]; [reflexivity|]; simpl.
  destruct (isspace c) eqn:E; intros H.
  - repeat (apply andb_prop in H as [H ?]).
    destruct t; [discriminate | now apply IH].
  - destruct t; [reflexivity | now apply IH].
Qed.

Lemma normalized_fixed (s : str) :
  normalized s = true -> squeeze false (strip s) = s.
Proof.
  unfold normalized. intros H. apply andb_prop in H as [H1 H2].
  rewrite strip_clean; auto using spaced_ends_clean, squeeze_spaced.
Qed.

(** Trimming and collapsing commute. *)
Lemma lstrip_squeeze (s : str) :
  lstrip (squeeze false s) = squeeze false (lstrip s).
Proof.
  unfold lstrip. destruct s as [|c t]; [reflexivity|]; simpl.
  destruct (isspace c) eqn:E; simpl; [|now rewrite E].
  rewrite <- squeeze_true_drop.
  pose proof (squeeze_true_starts t) as S.
  destruct (squeeze true t) as [|d r]; [reflexivity|].
  simpl in *. now destruct (isspace d).
Qed.

Lemma rstrip_squeeze b (s : str) :
  rstrip (squeeze b s) = squeeze b (rstrip s).
Proof.
  revert b. induction s as [|c t IH]; intros b; [reflexivity|].
  cbn [squeeze]. destruct (isspace c) eqn:E.
  - rewrite (rstrip_cons c t), E.
    destruct (rstrip t) as [|d r] eqn:R.
    + assert (Q : rstrip (squeeze true t) = []) by (now rewrite IH).
      destruct b; [exact Q|]. rewrite rstrip_cons, Q. reflexivity.
    + pose proof (IH true) as IHt.
      pose proof (rstrip_ends_clean t) as C. rewrite R in C.
      remember (d :: r) as u eqn:U.
      cbn [squeeze]. rewrite E, <- IHt.
      destruct b; [reflexivity|]. rewrite rstrip_cons.
      destruct (rstrip (squeeze true t)) eqn:Q; [|reflexivity].
      symmetry in IHt. apply squeeze_nil_all in IHt.
      rewrite (ends_clean_all _ C IHt) in U. discriminate.
  - rewrite !rstrip_cons_nonspace by exact E. cbn [squeeze]. rewrite E.
    f_equal. apply IH.
Qed.

Lemma strip_squeeze (s : str) :
  strip (squeeze false s) = squeeze false (strip s).
Proof. unfold strip. now rewrite lstrip_squeeze, rstrip_squeeze. Qed.
End Squeeze.

(* ===================================================================== *)
(** ** The matcher: what [x+] leaves, and [re.sub] on [\s+] *)
(* ===================================================================== *)

Section Matcher.
Import Py.

Lemma flat_map_singleton {A} (l : list A) : flat_map (fun r => [r]) l = l.
Proof. induction l as [|a l IH]; simpl; [reflexivity | now rewrite IH]. Qed.

Lemma length_drop_while p (s : str) :
  length (drop_while p s) <= length s.
Proof.
  induction s as [|c t IH]; simpl; [lia|]. destruct (p c); simpl; lia.
Qed.

Lemma skipn_drop_while p (s : str) :
  skipn (length s - length (drop_while p s)) s = drop_while p s.
Proof.
  induction s as [|c t IH]; [reflexivity|].
  cbn [drop_while]. destruct (p c).
  - pose proof (length_drop_while p t).
    cbn [length]. rewrite Nat.sub_succ_l by lia. exact IH.
  - now rewrite Nat.sub_diag.
Qed.

(** The greedy [x+] first tries the longest repetition. *)
Lemma repeat_tails_first x c (t : str) :
  Re.single_matches x c = true ->
  exists l,
    Re.repeat_tails x (c :: t) = drop_while (Re.single_matches x) t :: l.
Proof.
  revert c. induction t as [|d t IH]; intros c Hc; simpl; rewrite Hc.
  - now exists [].
  - destruct (Re.single_matches x d) eqn:Hd.
    + destruct (IH d Hd) as [l Hl]. simpl in Hl. rewrite Hd in Hl.
      rewrite Hl. now exists (l ++ [d :: t]).
    + now exists [].
Qed.

(** [x+] matches exactly the non-empty prefixes made of characters that
    [x] matches. *)
Lemma in_repeat_tails x (s r : str) :
  List.In r (Re.repeat_tails x s) <->
  exists pre, pre <> [] /\ forallb (Re.single_matches x) pre = true
              /\ s = pre ++ r.
Proof.
  revert r. induction s as [|c t IH]; intros r; simpl.
  - split; [tauto|]. intros (pre & Hn & _ & E).
    destruct pre; [congruence | discriminate].
  - destruct (Re.single_matches x c) eqn:Hc.
    + rewrite in_app_iff, IH. simpl. split.
      * intros [(pre & Hn & Hp & E) | [E | []]].
        -- exists (c :: pre). subst t. simpl. now rewrite Hc, Hp.
        -- exists [c]. subst r. simpl. now rewrite Hc.
      * intros (pre & Hn & Hp & E).
        destruct pre as [|d pre]; [congruence|].
        simpl in E, Hp. injection E as -> ->.
        apply andb_prop in Hp as [_ Hp].
        destruct pre as [|e pre]; [now right; left|].
        left. exists (e :: pre). now split; [discriminate|].
    + split; [intros []|]. intros (pre & Hn & Hp & E).
      destruct pre as [|d pre]; [congruence|].
      simpl in E, Hp. injection E as -> ->. now rewrite Hc in Hp.
Qed.

Lemma space_set_matches c :
  Re.single_matches (Re.In false [Re.CATEGORY_SPACE]) c = isspace c.
Proof. simpl. now rewrite orb_false_r. Qed.

Lemma drop_while_ext p q (s : str) :
  (forall c, p c = q c) -> drop_while p s = drop_while q s.
Proof.
  intros H. induction s as [|c t IH]; simpl; [reflexivity|].
  rewrite H, IH. reflexivity.
Qed.

Lemma ends_SPACES bos (s : str) :
  Re.ends SPACES bos s =
  Re.repeat_tails (Re.In false [Re.CATEGORY_SPACE]) s.
Proof. unfold SPACES. cbn [Re.ends]. apply flat_map_singleton. Qed.

(** [re.sub(r"\s+", " ", s)] collapses every run of whitespace; after a
    match it resumes where the match ended. *)
Lemma sub_from_SPACES (s : str) : forall bos skip,
  Re.sub_from SPACES (py " ") bos skip s = squeeze false (skipn skip s).
Proof.
  induction s as [|c t IH]; intros bos skip.
  - destruct skip; reflexivity.
  - destruct skip as [|k]; [|apply IH].
    cbn [Re.sub_from skipn squeeze]. rewrite ends_SPACES.
    destruct (isspace c) eqn:E.
    + destruct (repeat_tails_first (Re.In false [Re.CATEGORY_SPACE]) c t)
        as [l Hl]; [now rewrite space_set_matches|].
      rewrite Hl.
      rewrite (drop_while_ext _ isspace t space_set_matches).
      pose proof (length_drop_while isspace t).
      cbn [length]. rewrite Nat.sub_succ_l by lia.
      rewrite IH, skipn_drop_while, squeeze_true_drop. reflexivity.
    + cbn [Re.repeat_tails]. rewrite space_set_matches, E.
      rewrite IH. reflexivity.
Qed.

Lemma sub_SPACES (s : str) : Re.sub SPACES (py " ") s = squeeze false s.
Proof. unfold Re.sub. now rewrite sub_from_SPACES. Qed.
End Matcher.

(* ===================================================================== *)
(** ** [normalize_space] *)
(* ===================================================================== *)

Section Normalize.
Import Py.

Lemma or_else_some (s : str) : or_else (Some s) [] = s.
Proof. now destruct s. Qed.

Lemma normalize_space_eq (s : str) :
  normalize_space (Some s) = squeeze false (strip s).
Proof. unfold normalize_space. now rewrite or_else_some, sub_SPACES. Qed.

Lemma normalize_space_normalized v :
  normalized (normalize_space v) = true.
Proof.
  destruct v as [s|]; [|reflexivity].
  rewrite normalize_space_eq. apply normalized_squeeze_strip.
Qed.

Lemma normalize_space_fixed (s : str) :
  normalized s = true -> normalize_space (Some s) = s.
Proof. intros H. rewrite normalize_space_eq. now apply normalized_fixed. Qed.

Lemma normalize_space_idempotent v :
  normalize_space (Some (normalize_space v)) = normalize_space v.
Proof. apply normalize_space_fixed, normalize_space_normalized. Qed.

Lemma normalize_space_ends_clean v :
  ends_clean (normalize_space v) = true.
Proof.
  pose proof (normalize_space_normalized v) as H.
  apply andb_prop in H as [_ H]. now apply spaced_ends_clean.
Qed.

(** The normalized value is empty exactly for blank input. *)
Lemma normalize_space_truthy (s : str) :
  truthy (normalize_space (Some s)) = negb (forallb isspace s).
Proof.
  rewrite normalize_space_eq.
  destruct (forallb isspace s) eqn:E.
  - now rewrite strip_all.
  - destruct (squeeze false (strip s)) eqn:Q; [|reflexivity].
    apply squeeze_nil_all in Q.
    pose proof (ends_clean_all _ (strip_ends s) Q) as A.
    apply strip_nil_all in A. congruence.
Qed.
End Normalize.

(* ===================================================================== *)
(** ** What the matcher accepts, operation by operation *)
(* ===================================================================== *)

Section Semantics.
Import Py.

Lemma in_ends_nil bos (s r : str) : List.In r (Re.ends [] bos s) <-> r = s.
Proof. simpl. split; [now intros [->|[]] | now left]. Qed.

Lemma in_ends_one x p bos (s r : str) :
  List.In r (Re.ends (Re.One x :: p) bos s) <->
  exists c t, s = c :: t /\ Re.single_matches x c = true
              /\ List.In r (Re.ends p false t).
Proof.
  cbn [Re.ends]. destruct s as [|c t].
  - split; [intros [] | now intros (? & ? & ? & _)].
  - destruct (Re.single_matches x c) eqn:E.
    + split; [now exists c, t|]. now intros (? & ? & [= <- <-] & _ & H).
    + split; [intros []|]. intros (? & ? & [= <- <-] & H & _). congruence.
Qed.

Lemma in_ends_repeat x p bos (s r : str) :
  List.In r (Re.ends (Re.MaxRepeat1 x :: p) bos s) <->
  exists pre rest,
    pre <> [] /\ forallb (Re.single_matches x) pre = true
    /\ s = pre ++ rest /\ List.In r (Re.ends p false rest).
Proof.
  cbn [Re.ends]. rewrite in_flat_map. split.
  - intros (rest & Hin & Hr). apply in_repeat_tails in Hin.
    destruct Hin as (pre & ? & ? & ?). now exists pre, rest.
  - intros (pre & rest & ? & ? & ? & ?). exists rest. split; [|assumption].
    apply in_repeat_tails. now exists pre.
Qed.

Lemma in_ends_beginning p bos (s r : str) :
  List.In r (Re.ends (Re.AtBeginning :: p) bos s) <->
  bos = true /\ List.In r (Re.ends p bos s).
Proof.
  cbn [Re.ends]. destruct bos; [tauto|].
  split; [intros [] | now intros [? _]].
Qed.

Lemma in_ends_end p bos (s r : str) :
  List.In r (Re.ends (Re.AtEnd :: p) bos s) <->
  Re.at_end s = true /\ List.In r (Re.ends p bos s).
Proof.
  cbn [Re.ends]. destruct (Re.at_end s); [tauto|].
  split; [intros [] | now intros [? _]].
Qed.

Lemma match_some p (s : str) :
  is_some (Re.match_ p s) = true <-> exists r, List.In r (Re.ends p true s).
Proof.
  unfold Re.match_. destruct (Re.ends p true s) as [|r l]; simpl.
  - split; [discriminate | now intros [? []]].
  - split; [now exists r; left | reflexivity].
Qed.

Lemma fullmatch_some p (s : str) :
  is_some (Re.fullmatch p s) = true <-> List.In [] (Re.ends p true s).
Proof.
  unfold Re.fullmatch. split.
  - destruct (find _ _) as [r|] eqn:F; [|discriminate]. intros _.
    apply find_some in F as [Hin Hr]. now destruct r.
  - intros Hin. destruct (find _ _) eqn:F; [reflexivity|].
    now apply (find_none _ _ F) in Hin.
Qed.
End Semantics.

(* ===================================================================== *)
(** ** The email shape and the single initial *)
(* ===================================================================== *)

Section Shapes.
Import Py.

Lemma email_word_iff (w : str) :
  (w <> [] /\ forallb (Re.single_matches not_space_or_at) w = true)
  <-> email_word w.
Proof.
  unfold email_word. rewrite forallb_forall.
  split; intros [Hn H]; (split; [exact Hn|]); intros c Hc;
    specialize (H c Hc); simpl in *.
  - rewrite orb_false_r in H. apply negb_true_iff, orb_false_elim in H.
    destruct H as [H1 H2]. split; [exact H1|]. now apply N.eqb_neq.
  - destruct H as [H1 H2]. apply N.eqb_neq in H2.
    now rewrite H1, H2.
Qed.

(** [EMAIL_RE.match(s)] succeeds exactly on the shape, possibly followed
    by the one newline that [$] tolerates at the end of the subject. *)
Lemma EMAIL_RE_ends (s r : str) :
  List.In r (Re.ends EMAIL_RE true s) <->
  exists local domain tld,
    email_word local /\ email_word domain /\ email_word tld
    /\ s = local ++ [0x40%N] ++ domain ++ [0x2E%N] ++ tld ++ r
    /\ Re.at_end r = true.
Proof.
  unfold EMAIL_RE. split.
  - intros H.
    apply in_ends_beginning in H as [_ H].
    apply in_ends_repeat in H as (l & s1 & Hl & Fl & -> & H).
    apply in_ends_one in H as (c1 & s2 & -> & Hc1 & H).
    apply in_ends_repeat in H as (d & s3 & Hd & Fd & -> & H).
    apply in_ends_one in H as (c2 & s4 & -> & Hc2 & H).
    apply in_ends_repeat in H as (t & s5 & Ht & Ft & -> & H).
    apply in_ends_end in H as [He H].
    apply in_ends_nil in H. subst r.
    simpl in Hc1, Hc2. apply N.eqb_eq in Hc1, Hc2. subst c1 c2.
    exists l, d, t. repeat (split; [now apply email_word_iff|]).
    now split.
  - intros (l & d & t & Hl & Hd & Ht & -> & He).
    apply email_word_iff in Hl as [? ?], Hd as [? ?], Ht as [? ?].
    apply in_ends_beginning. split; [reflexivity|].
    apply in_ends_repeat. exists l, ([0x40%N] ++ d ++ [0x2E%N] ++ t ++ r).
    repeat split; try assumption.
    apply in_ends_one. exists 0x40%N, (d ++ [0x2E%N] ++ t ++ r).
    repeat split.
    apply in_ends_repeat. exists d, ([0x2E%N] ++ t ++ r).
    repeat split; try assumption.
    apply in_ends_one. exists 0x2E%N, (t ++ r). repeat split.
    apply in_ends_repeat. exists t, r. repeat split; try assumption.
    apply in_ends_end. split; [assumption|]. now apply in_ends_nil.
Qed.

Lemma ends_clean_app (a b : str) :
  b <> [] -> ends_clean (a ++ b) = ends_clean b.
Proof.
  intros Hb. induction a as [|c a IH]; [reflexivity|].
  change ((c :: a) ++ b) with (c :: (a ++ b)).
  destruct (a ++ b) eqn:E; [now destruct a, b | exact IH].
Qed.

(** On a subject that does not end in whitespace, and so on every
    normalized email, [$] can only stand at the very end. *)
Lemma EMAIL_RE_match_clean (s : str) :
  ends_clean s = true ->
  (is_some (Re.match_ EMAIL_RE s) = true <-> email_shape s).
Proof.
  intros Hs. rewrite match_some. split.
  - intros (r & H). apply EMAIL_RE_ends in H.
    destruct H as (l & d & t & Hl & Hd & Ht & E & He).
    destruct r as [|c [|? ?]]; try discriminate.
    + exists l, d, t. rewrite app_nil_r in E.
      now repeat (split; [assumption|]).
    + simpl in He. apply N.eqb_eq in He. subst c s.
      exfalso. rewrite !app_assoc in Hs.
      rewrite ends_clean_app in Hs by discriminate. discriminate.
  - intros (l & d & t & Hl & Hd & Ht & E). exists [].
    apply EMAIL_RE_ends. exists l, d, t. rewrite app_nil_r.
    now repeat (split; [assumption|]).
Qed.

(** The same, on any subject: the shape, or the shape and one final
    newline. *)
Lemma EMAIL_RE_match_any (s : str) :
  is_some (Re.match_ EMAIL_RE s) = true <->
  email_shape s \/ exists s', s = s' ++ [0x0A%N] /\ email_shape s'.
Proof.
  rewrite match_some. split.
  - intros (r & H). apply EMAIL_RE_ends in H.
    destruct H as (l & d & t & Hl & Hd & Ht & E & He).
    destruct r as [|c [|? ?]]; try discriminate.
    + left. exists l, d, t. rewrite app_nil_r in E.
      now repeat (split; [assumption|]).
    + simpl in He. apply N.eqb_eq in He. subst c s. right.
      exists (l ++ [0x40%N] ++ d ++ [0x2E%N] ++ t).
      split; [now rewrite <- !app_assoc|]. exists l, d, t.
      now repeat (split; [assumption|]).
  - intros [(l & d & t & Hl & Hd & Ht & E)
           | (s' & -> & l & d & t & Hl & Hd & Ht & ->)].
    + exists []. apply EMAIL_RE_ends. exists l, d, t.
      rewrite app_nil_r. now repeat (split; [assumption|]).
    + exists [0x0A%N]. apply EMAIL_RE_ends. exists l, d, t.
      repeat (split; [assumption|]). now rewrite <- !app_assoc.
Qed.

Lemma is_allowed_single_initial_shape (s : str) :
  is_allowed_single_initial (Some s) = true <-> initial_shape s.
Proof.
  unfold is_allowed_single_initial, initial_shape, INITIAL_THEN_SPACES.
  rewrite fullmatch_some. split.
  - intros H.
    apply in_ends_one in H as (c & s1 & -> & Hc & H).
    apply in_ends_repeat in H as (ws & r & Hn & Hw & -> & H).
    apply in_ends_nil in H. subst r. rewrite app_nil_r.
    exists c, ws. split; [reflexivity|].
    simpl in Hc. rewrite orb_false_r in Hc.
    apply andb_prop in Hc as [H1 H2].
    apply N.leb_le in H1, H2. repeat split; try assumption.
    intros w Hin. rewrite forallb_forall in Hw.
    rewrite <- space_set_matches. now apply Hw.
  - intros (c & ws & -> & [H1 H2] & Hn & Hw).
    apply in_ends_one. exists c, ws. split; [reflexivity|]. split.
    + simpl. rewrite orb_false_r. apply andb_true_intro.
      now split; apply N.leb_le.
    + apply in_ends_repeat. exists ws, []. rewrite app_nil_r.
      repeat split; try assumption.
      * apply forallb_forall. intros w Hin.
        rewrite space_set_matches. now apply Hw.
      * now apply in_ends_nil.
Qed.
End Shapes.

(* ===================================================================== *)
(** ** SQL literals and the generated script *)
(* ===================================================================== *)

Section Sql.
Import Py.

Lemma replace_quote (v : str) : replace v [quote] [quote; quote] = doubled v.
Proof.
  unfold replace. induction v as [|c t IH]; [reflexivity|].
  cbn [replace_from is_prefix doubled flat_map length Nat.sub].
  rewrite andb_true_r, N.eqb_sym.
  destruct (c =? quote)%N; cbn [app]; now rewrite IH.
Qed.

Lemma sql_string_literal_eq (v : str) :
  sql_string_literal v = [quote] ++ doubled v ++ [quote].
Proof. unfold sql_string_literal. now rewrite replace_quote. Qed.

Lemma read_body_doubled (v rest : str) :
  hd_error rest <> Some quote ->
  read_body (doubled v ++ quote :: rest) = Some (v, rest).
Proof.
  intros Hrest. induction v as [|c v IH].
  - cbn. destruct rest as [|d r]; [reflexivity|].
    destruct (N.eqb_spec d quote) as [->|_]; [now destruct Hrest|].
    reflexivity.
  - unfold doubled in *. cbn [flat_map].
    destruct (N.eqb_spec c quote) as [->|Hc].
    + cbn. now rewrite IH.
    + cbn [List.app read_body]. apply N.eqb_neq in Hc. now rewrite Hc, IH.
Qed.

Lemma read_literal_sql_string_literal (v rest : str) :
  hd_error rest <> Some quote ->
  read_literal (sql_string_literal v ++ rest) = Some (v, rest).
Proof.
  intros Hrest. rewrite sql_string_literal_eq, <- !app_assoc.
  cbn. now apply read_body_doubled.
Qed.

Lemma skip_prefix_app (p s : str) : skip_prefix p (p ++ s) = Some s.
Proof.
  unfold skip_prefix.
  assert (P : is_prefix p (p ++ s) = true).
  { induction p as [|c p IH]; [reflexivity|].
    cbn. now rewrite N.eqb_refl, IH. }
  assert (K : skipn (length p) (p ++ s) = s).
  { clear P. induction p as [|c p IH]; [reflexivity | exact IH]. }
  now rewrite P, K.
Qed.

(** The statement determines the four values it was built from. *)
Lemma read_greeting_call_sql (a b c d : str) :
  read_greeting (greeting_call_sql a b c d) = Some (a, b, c, d).
Proof.
  unfold read_greeting, greeting_call_sql.
  rewrite skip_prefix_app.
  rewrite read_literal_sql_string_literal by discriminate.
  rewrite skip_prefix_app.
  rewrite read_literal_sql_string_literal by discriminate.
  rewrite skip_prefix_app.
  rewrite read_literal_sql_string_literal by discriminate.
  rewrite skip_prefix_app.
  rewrite read_literal_sql_string_literal by discriminate.
  reflexivity.
Qed.

Lemma rstrip_app_blank (s w : str) :
  forallb isspace w = true -> rstrip (s ++ w) = rstrip s.
Proof.
  intros Hw. induction s as [|c t IH].
  - now rewrite rstrip_all.
  - change ((c :: t) ++ w) with (c :: (t ++ w)).
    now rewrite !rstrip_cons, IH.
Qed.

(** The stripping of line 202 removes only the newline that follows the
    greeting statement. *)
Lemma sql_out_eq (g : str) :
  ends_clean g = true -> g <> [] ->
  sql_out g = script_head ++ g ++ newline.
Proof.
  intros Hg Hn. unfold sql_out.
  rewrite (app_assoc script_head g newline).
  f_equal. unfold strip.
  rewrite lstrip_clean by reflexivity.
  rewrite rstrip_app_blank by reflexivity.
  apply rstrip_clean. now rewrite ends_clean_app.
Qed.

Lemma greeting_call_sql_clean (a b c d : str) :
  ends_clean (greeting_call_sql a b c d) = true
  /\ greeting_call_sql a b c d <> [].
Proof.
  unfold greeting_call_sql. split; [|discriminate].
  rewrite !app_assoc. now rewrite ends_clean_app.
Qed.

Lemma sql_out_greeting (a b c d : str) :
  sql_out (greeting_call_sql a b c d) =
  script_head ++ greeting_call_sql a b c d ++ newline.
Proof. apply sql_out_eq; apply greeting_call_sql_clean. Qed.
End Sql.

(* ===================================================================== *)
(** ** The casing rule on the letters of a name *)
(* ===================================================================== *)

Section CasingFacts.
Variable ucd : Py.unicode_data.

Lemma looks_like_bad_name_case_eq (value : str) :
  looks_like_bad_name_case ucd value =
  let ls := letters ucd (normalize_space (Some value)) in
  if length ls <=? 1 then false
  else forallb (Py.ch_islower ucd) ls || forallb (Py.ch_isupper ucd) ls.
Proof.
  unfold looks_like_bad_name_case, letters.
  rewrite (filter_ext (fun ch => Py.isalpha ucd [ch]) (Py.ch_isalpha ucd)).
  - reflexivity.
  - intros c. unfold Py.isalpha. simpl. now rewrite andb_true_r.
Qed.

Lemma forallb_letters (f : Py.char -> bool) (v : str) :
  forallb f (letters ucd v) = true <->
  forall c, List.In c v -> Py.ch_isalpha ucd c = true -> f c = true.
Proof.
  unfold letters. rewrite forallb_forall. split.
  - intros H c Hin Ha. apply H, filter_In. now split.
  - intros H c Hin. apply filter_In in Hin as [Hin Ha]. now apply H.
Qed.
End CasingFacts.

(* ===================================================================== *)
(** ** Runs of the script *)
(* ===================================================================== *)

Section Runs.
Variable ucd : Py.unicode_data.

Lemma for_each_st_error (l : list str) :
  for_each l st_error = (map Error l, Some tt).
Proof.
  induction l as [|m l IH]; [reflexivity|].
  cbn [for_each]. rewrite IH. reflexivity.
Qed.

Lemma show_and_stop (l : list str) :
  (for_each l st_error ;; @st_stop unit)%monad = (map Error l, None).
Proof.
  rewrite for_each_st_error. cbn. now rewrite app_nil_r.
Qed.

(** A submitted form runs to the first category with errors. *)
Lemma app_submitted (email first_raw middle_raw last_raw : str) :
  app ucd true email first_raw middle_raw last_raw =
  let email := normalize_space (Some email) in
  let first := normalize_space (Some first_raw) in
  let middle := normalize_space (Some middle_raw) in
  let last := normalize_space (Some last_raw) in
  match errors email first last with
  | (_ :: _) as shown => (map Error shown, None)
  | [] =>
      match name_case_errors ucd first middle_raw middle last with
      | (_ :: _) as shown => (map Error shown, None)
      | [] =>
          match single_char_errors ucd first first_raw middle middle_raw
                  last last_raw with
          | _ :: _ => ([Error single_char_msg], None)
          | [] =>
              (success_page
                 (sql_out
                    (greeting_call_sql email first_raw middle_raw last_raw)),
               Some tt)
          end
      end
  end.
Proof.
  unfold app. rewrite !or_else_some. cbv zeta.
  generalize (sql_out
    (greeting_call_sql (normalize_space (Some email)) first_raw middle_raw
       last_raw)) as out.
  intros out.
  destruct (errors _ _ _) as [|e1 l1].
  2: { cbn [when negb nonempty]. rewrite show_and_stop. reflexivity. }
  destruct (name_case_errors _ _ _ _ _) as [|e2 l2].
  2: { cbn [when negb nonempty]. rewrite show_and_stop. reflexivity. }
  destruct (single_char_errors _ _ _ _ _ _ _) as [|e3 l3]; reflexivity.
Qed.
End Runs.

(* ===================================================================== *)
(** ** The helper functions against the specification *)
(* ===================================================================== *)

(** C7. [normalize_space] replaces every maximal run of whitespace by one
    space and trims both ends (the script trims first and collapses second,
    which gives the same string), returns the empty string for [None] and for
    the empty string, is idempotent, and sends ["  a   b  "] to ["a b"]. *)
Theorem normalize_space_collapses_trims_idempotent (v : option str) :
  normalize_space v = collapse_then_trim v
  /\ normalize_space (Some (normalize_space v)) = normalize_space v
  /\ normalize_space None = []
  /\ normalize_space (Some []) = []
  /\ normalize_space (Some (py "  a   b  ")) = py "a b".
Proof.
  split; [|split; [apply normalize_space_idempotent | now repeat split]].
  destruct v as [s|]; [|reflexivity].
  rewrite normalize_space_eq. symmetry. apply strip_squeeze.
Qed.

(** C4. [is_allowed_single_initial] holds exactly for one uppercase ASCII
    letter followed by one or more whitespace characters and nothing else;
    it is false for [None], for the empty string, for ["K"] and for ["k "],
    and true for ["K "]. *)
Theorem is_allowed_single_initial_iff (raw_value : option str) :
  (is_allowed_single_initial raw_value = true <->
   exists s, raw_value = Some s /\ initial_shape s)
  /\ is_allowed_single_initial None = false
  /\ is_allowed_single_initial (Some []) = false
  /\ is_allowed_single_initial (Some (py "K")) = false
  /\ is_allowed_single_initial (Some (py "k ")) = false
  /\ is_allowed_single_initial (Some (py "K ")) = true.
Proof.
  split; [|now repeat split].
  destruct raw_value as [s|].
  - rewrite is_allowed_single_initial_shape. split.
    + intros H. now exists s.
    + now intros (s' & [= <-] & H).
  - split; [discriminate | now intros (s & H & _)].
Qed.

(** C6. The email check of lines 91-94 runs [EMAIL_RE.match] on the
    normalized email, and accepts it exactly when it is one or more
    characters that are neither whitespace nor an at sign, an at sign, one or
    more such characters, a dot, and one or more such characters; so does
    [EMAIL_RE.match] on any string that does not end in whitespace. The
    invalid-email message is raised exactly for a non-empty email without
    that shape. ["x@y.com"] is accepted; ["x@y"], ["@y.com"] and
    ["x y@z.com"] are rejected. *)
Theorem email_validator_accepts_shape (email_raw first last : str) :
  let email := normalize_space (Some email_raw) in
  (is_some (Re.match_ EMAIL_RE email) = true <-> email_shape email)
  /\ (forall s : str, ends_clean s = true ->
        (is_some (Re.match_ EMAIL_RE s) = true <-> email_shape s))
  /\ (List.In msg_email_invalid (errors email first last) <->
      Py.truthy email = true /\ ~ email_shape email)
  /\ is_some (Re.match_ EMAIL_RE (py "x@y.com")) = true
  /\ is_some (Re.match_ EMAIL_RE (py "x@y")) = false
  /\ is_some (Re.match_ EMAIL_RE (py "@y.com")) = false
  /\ is_some (Re.match_ EMAIL_RE (py "x y@z.com")) = false.
Proof.
  intros email.
  assert (M : is_some (Re.match_ EMAIL_RE email) = true <-> email_shape email)
    by apply EMAIL_RE_match_clean, normalize_space_ends_clean.
  split; [exact M|]. split; [exact EMAIL_RE_match_clean|].
  split; [|now repeat split].
  rewrite <- M. unfold errors.
  destruct (Py.truthy email); cbn [negb].
  - destruct (is_some (Re.match_ EMAIL_RE email)); cbn [negb app].
    + split; [|now intros [_ H]].
      destruct (Py.truthy first), (Py.truthy last); cbn;
        intros H; repeat destruct H as [H|H]; try discriminate H; tauto.
    + split; [now intros _|]. intros _.
      destruct (Py.truthy first), (Py.truthy last); cbn; tauto.
  - split; [|now intros [H _]].
    destruct (Py.truthy first), (Py.truthy last); cbn;
      intros H; repeat destruct H as [H|H]; try discriminate H; tauto.
Qed.

(** C5. On a normalized name, [looks_like_bad_name_case] is false when the
    name has at most one alphabetic character; otherwise it is true exactly
    when every alphabetic character is lowercase or every alphabetic
    character is uppercase. ["O'Brien"], with the letters [OBrien], gives
    false, as do ["John"] and ["J"]; ["john"] and ["JOHN"] give true. *)
Theorem looks_like_bad_name_case_rule (ucd : Py.unicode_data) (name : str)
    (Hnorm : normalize_space (Some name) = name) :
  (length (letters ucd name) <= 1 ->
   looks_like_bad_name_case ucd name = false)
  /\ (1 < length (letters ucd name) ->
      (looks_like_bad_name_case ucd name = true <->
       (forall c, List.In c name -> Py.ch_isalpha ucd c = true ->
                  Py.ch_islower ucd c = true)
       \/ (forall c, List.In c name -> Py.ch_isalpha ucd c = true ->
                     Py.ch_isupper ucd c = true)))
  /\ looks_like_bad_name_case ucd (py "O'Brien") = false
  /\ looks_like_bad_name_case ucd (py "John") = false
  /\ looks_like_bad_name_case ucd (py "J") = false
  /\ looks_like_bad_name_case ucd (py "john") = true
  /\ looks_like_bad_name_case ucd (py "JOHN") = true.
Proof.
  rewrite looks_like_bad_name_case_eq, Hnorm. cbv zeta.
  split; [|split; [|now repeat split]].
  - intros H. apply Nat.leb_le in H. now rewrite H.
  - intros H. apply Nat.leb_gt in H. rewrite H.
    rewrite orb_true_iff, !forallb_letters. reflexivity.
Qed.

Lemma looks_like_bad_name_case_rule_witness :
  normalize_space (Some (py "O'Brien")) = py "O'Brien"
  /\ looks_like_bad_name_case ascii_only (py "O'Brien") = false.
Proof.
  split; [reflexivity|].
  apply (looks_like_bad_name_case_rule ascii_only (py "O'Brien")).
  reflexivity.
Defined.

(* ===================================================================== *)
(** ** The three categories of errors *)
(* ===================================================================== *)

Ltac by_cases := cbn; intuition (try discriminate; auto).

Section Categories.
Variable ucd : Py.unicode_data.

Lemma in_errors (email first last x : str) :
  List.In x (errors email first last) <->
  (x = msg_email_required /\ Py.truthy email = false)
  \/ (x = msg_email_invalid /\ Py.truthy email = true
      /\ is_some (Re.match_ EMAIL_RE email) = false)
  \/ (x = msg_first_required /\ Py.truthy first = false)
  \/ (x = msg_last_required /\ Py.truthy last = false).
Proof.
  unfold errors.
  destruct (Py.truthy email), (is_some (Re.match_ EMAIL_RE email)),
    (Py.truthy first), (Py.truthy last); by_cases.
Qed.

Lemma in_name_case_errors (first middle_raw middle last x : str) :
  List.In x (name_case_errors ucd first middle_raw middle last) <->
  (x = msg_first_case
   /\ single_lowercase ucd first || looks_like_bad_name_case ucd first = true)
  \/ (x = msg_middle_case
      /\ (Py.truthy middle_raw && single_lowercase ucd middle)
         || (Py.truthy middle && looks_like_bad_name_case ucd middle) = true)
  \/ (x = msg_last_case
      /\ single_lowercase ucd last || looks_like_bad_name_case ucd last = true).
Proof.
  unfold name_case_errors, single_lowercase.
  rewrite <- (andb_assoc (Py.truthy middle_raw)).
  destruct ((length first =? 1) && Py.islower ucd first),
    (Py.truthy middle_raw && ((length middle =? 1) && Py.islower ucd middle)),
    ((length last =? 1) && Py.islower ucd last),
    (looks_like_bad_name_case ucd first),
    (Py.truthy middle && looks_like_bad_name_case ucd middle),
    (looks_like_bad_name_case ucd last); by_cases.
Qed.

Lemma in_single_char_errors
    (first first_raw middle middle_raw last last_raw x : str) :
  List.In x (single_char_errors ucd first first_raw middle middle_raw
               last last_raw) <->
  x = single_char_msg
  /\ single_char_first_or_last ucd first first_raw
     || single_char_middle ucd middle middle_raw
     || single_char_first_or_last ucd last last_raw = true.
Proof.
  unfold single_char_errors.
  destruct (single_char_first_or_last ucd first first_raw),
    (single_char_middle ucd middle middle_raw),
    (single_char_first_or_last ucd last last_raw); by_cases.
Qed.

Lemma nil_iff_no_member {A} (l : list A) :
  l = [] <-> forall x, ~ List.In x l.
Proof.
  split; [now intros -> x|]. destruct l as [|a l]; [reflexivity|].
  intros H. destruct (H a). now left.
Qed.

Lemma single_char_errors_nil
    (first first_raw middle middle_raw last last_raw : str) :
  single_char_errors ucd first first_raw middle middle_raw last last_raw
    = [] <->
  single_char_first_or_last ucd first first_raw
  || single_char_middle ucd middle middle_raw
  || single_char_first_or_last ucd last last_raw = false.
Proof.
  rewrite nil_iff_no_member. split.
  - intros H. apply not_true_is_false. intros C.
    apply (H single_char_msg), in_single_char_errors. now split.
  - intros H x Hin. apply in_single_char_errors in Hin as [_ C]. congruence.
Qed.

(** A one-character normalized value comes from a non-empty raw one. *)
Lemma single_char_raw_truthy (raw : str) :
  length (normalize_space (Some raw)) = 1 -> Py.truthy raw = true.
Proof. destruct raw; [discriminate | reflexivity]. Qed.

Lemma case_messages_differ :
  msg_first_case <> single_char_msg /\ msg_middle_case <> single_char_msg
  /\ msg_last_case <> single_char_msg.
Proof. repeat split; discriminate. Qed.

Lemma in_map_Error (x : str) (l : list str) :
  List.In (Error x) (map Error l) <-> List.In x l.
Proof.
  rewrite in_map_iff. split.
  - now intros (y & [= ->] & H).
  - intros H. now exists x.
Qed.

Lemma Code_inj (x y : str) : Code x = Code y -> x = y.
Proof. now intros [= ->]. Qed.

Lemma in_success_page_no_error (x out : str) :
  ~ List.In (Error x) (success_page out).
Proof. intros H. repeat destruct H as [H|H]; discriminate || easy. Qed.
End Categories.

(* ===================================================================== *)
(** ** The script against the specification *)
(* ===================================================================== *)

Section Pipeline.
Variable ucd : Py.unicode_data.
Variables email_raw first_raw middle_raw last_raw : str.

Lemma run_eq :
  app ucd true email_raw first_raw middle_raw last_raw =
  match presence_of email_raw first_raw last_raw,
        casing_of ucd first_raw middle_raw last_raw,
        single_of ucd first_raw middle_raw last_raw with
  | _ :: _, _, _ =>
      (map Error (presence_of email_raw first_raw last_raw), None)
  | [], _ :: _, _ =>
      (map Error (casing_of ucd first_raw middle_raw last_raw), None)
  | [], [], _ :: _ => ([Error single_char_msg], None)
  | [], [], [] =>
      (success_page
         (sql_out (greeting_of email_raw first_raw middle_raw last_raw)),
       Some tt)
  end.
Proof.
  rewrite app_submitted. cbv zeta.
  unfold presence_of, casing_of, single_of, greeting_of.
  destruct (errors _ _ _); [|reflexivity].
  destruct (name_case_errors _ _ _ _ _); [|reflexivity].
  destruct (single_char_errors _ _ _ _ _ _ _); reflexivity.
Qed.

Lemma run_finished :
  finished (app ucd true email_raw first_raw middle_raw last_raw) = true ->
  presence_of email_raw first_raw last_raw = []
  /\ casing_of ucd first_raw middle_raw last_raw = []
  /\ single_of ucd first_raw middle_raw last_raw = []
  /\ rendered (app ucd true email_raw first_raw middle_raw last_raw)
     = success_page
         (sql_out (greeting_of email_raw first_raw middle_raw last_raw)).
Proof.
  rewrite run_eq.
  destruct (presence_of email_raw first_raw last_raw); [|discriminate].
  destruct (casing_of ucd first_raw middle_raw last_raw); [|discriminate].
  destruct (single_of ucd first_raw middle_raw last_raw); [|discriminate].
  now intros _.
Qed.
End Pipeline.

(** C2. The categories are run in the order presence and shape, casing,
    single character, and the first one with errors ends the run: its
    messages are all shown, in order, and nothing else is rendered; a later
    category contributes nothing, and the script is rendered only when all
    three are empty. (The single-character category shows its one shared
    message, which is every message in its list.) *)
Theorem validation_is_fail_fast (ucd : Py.unicode_data)
    (email_raw first_raw middle_raw last_raw : str) :
  let run := app ucd true email_raw first_raw middle_raw last_raw in
  let presence := presence_of email_raw first_raw last_raw in
  let casing := casing_of ucd first_raw middle_raw last_raw in
  let single := single_of ucd first_raw middle_raw last_raw in
  rendered run =
    match presence, casing, single with
    | _ :: _, _, _ => map Error presence
    | [], _ :: _, _ => map Error casing
    | [], [], _ :: _ => [Error single_char_msg]
    | [], [], [] =>
        success_page
          (sql_out (greeting_of email_raw first_raw middle_raw last_raw))
    end
  /\ finished run =
       match presence, casing, single with
       | [], [], [] => true
       | _, _, _ => false
       end
  /\ (forall msg, List.In msg single -> msg = single_char_msg)
  /\ (finished run = false ->
      forall x, List.In x (rendered run) -> is_error x = true).
Proof.
  intros run presence casing single.
  assert (S : forall msg, List.In msg single -> msg = single_char_msg).
  { intros msg H. now apply in_single_char_errors in H. }
  unfold run. rewrite run_eq. fold presence casing single.
  destruct presence as [|p ps]; [destruct casing as [|c cs];
    [destruct single as [|s ss]|]|]; cbn [rendered finished fst snd is_some];
    (split; [reflexivity|]); (split; [reflexivity|]); (split; [exact S|]);
    try discriminate; intros _ x Hx.
  - destruct Hx as [<-|[]]. reflexivity.
  - apply in_map_iff in Hx as (y & <- & _). reflexivity.
  - apply in_map_iff in Hx as (y & <- & _). reflexivity.
Qed.

(** C8. When the single-character category fires, its message is shown
    exactly once and is all that is shown, however many of the three name
    fields triggered it. *)
Theorem single_character_message_shown_once (ucd : Py.unicode_data)
    (email_raw first_raw middle_raw last_raw : str)
    (Hpresence : presence_of email_raw first_raw last_raw = [])
    (Hcasing : casing_of ucd first_raw middle_raw last_raw = [])
    (Hsingle : single_of ucd first_raw middle_raw last_raw <> []) :
  let run := app ucd true email_raw first_raw middle_raw last_raw in
  rendered run = [Error single_char_msg]
  /\ finished run = false
  /\ 1 <= length (single_of ucd first_raw middle_raw last_raw) <= 3.
Proof.
  intros run. unfold run. rewrite run_eq, Hpresence, Hcasing.
  destruct (single_of ucd first_raw middle_raw last_raw) as [|s ss] eqn:E;
    [congruence|].
  split; [reflexivity|]. split; [reflexivity|].
  revert E. unfold single_of, single_char_errors.
  destruct (single_char_first_or_last ucd _ first_raw),
    (single_char_middle ucd _ middle_raw),
    (single_char_first_or_last ucd _ last_raw);
    intros [= <- <-]; cbn; lia.
Qed.

Lemma single_character_message_shown_once_witness :
  length (single_of ascii_only (py "A") (py "B") (py "C")) = 3
  /\ rendered (app ascii_only true (py "a@b.com") (py "A") (py "B") (py "C"))
     = [Error single_char_msg].
Proof.
  split; [reflexivity|].
  apply (single_character_message_shown_once ascii_only
           (py "a@b.com") (py "A") (py "B") (py "C"));
    [reflexivity | reflexivity | discriminate].
Defined.

(** C10. Presence is checked on the normalized values: a required field
    whose raw input is empty or only whitespace is reported as missing. The
    run then shows messages of the presence and shape category only (nothing
    from the casing or single-character checks, and no script), and a blank
    email is reported as missing, not as invalid. *)
Theorem blank_required_field_is_missing (ucd : Py.unicode_data)
    (email_raw first_raw middle_raw last_raw : str)
    (Hblank : forallb Py.isspace email_raw || forallb Py.isspace first_raw
              || forallb Py.isspace last_raw = true) :
  let run := app ucd true email_raw first_raw middle_raw last_raw in
  rendered run = map Error (presence_of email_raw first_raw last_raw)
  /\ finished run = false
  /\ (forall x, List.In x (rendered run) ->
        x = Error msg_email_required \/ x = Error msg_email_invalid
        \/ x = Error msg_first_required \/ x = Error msg_last_required)
  /\ (forallb Py.isspace email_raw = true ->
        List.In (Error msg_email_required) (rendered run)
        /\ ~ List.In (Error msg_email_invalid) (rendered run))
  /\ (forallb Py.isspace first_raw = true ->
        List.In (Error msg_first_required) (rendered run))
  /\ (forallb Py.isspace last_raw = true ->
        List.In (Error msg_last_required) (rendered run)).
Proof.
  intros run.
  assert (T : forall raw : str, forallb Py.isspace raw = true ->
                Py.truthy (normalize_space (Some raw)) = false).
  { intros raw H. now rewrite normalize_space_truthy, H. }
  assert (N : presence_of email_raw first_raw last_raw <> []).
  { intros E0. pose proof (proj1 (nil_iff_no_member _) E0) as E.
    apply orb_prop in Hblank as [Hblank|Hl];
      [apply orb_prop in Hblank as [He|Hf]|].
    - apply (E msg_email_required), in_errors. left. now split; [|apply T].
    - apply (E msg_first_required), in_errors. right; right; left.
      now split; [|apply T].
    - apply (E msg_last_required), in_errors. right; right; right.
      now split; [|apply T]. }
  assert (R : run = (map Error (presence_of email_raw first_raw last_raw),
                     None)).
  { unfold run. rewrite run_eq.
    now destruct (presence_of email_raw first_raw last_raw). }
  rewrite R. cbn [rendered finished fst snd is_some].
  split; [reflexivity|]. split; [reflexivity|]. split.
  { intros x Hx. apply in_map_iff in Hx as (m & <- & Hm).
    apply in_errors in Hm.
    destruct Hm as [[-> _]|[[-> _]|[[-> _]|[-> _]]]]; tauto. }
  split; [|split].
  - intros He. split.
    + apply in_map_Error, in_errors. left. now split; [|apply T].
    + intros C. apply in_map_Error, in_errors in C.
      destruct C as [[C _]|[[_ [C _]]|[[C _]|[C _]]]]; try discriminate.
      rewrite (T _ He) in C. discriminate.
  - intros Hf. rewrite in_map_Error. apply in_errors.
    right; right; left. now split; [|apply T].
  - intros Hl. rewrite in_map_Error. apply in_errors.
    right; right; right. now split; [|apply T].
Qed.

Lemma blank_required_field_is_missing_witness :
  forallb Py.isspace (py "a@b.com") || forallb Py.isspace (py "   ")
  || forallb Py.isspace (py "Smith") = true
  /\ List.In (Error msg_first_required)
       (rendered (app ascii_only true (py "a@b.com") (py "   ") (py "")
                   (py "Smith"))).
Proof.
  split; [reflexivity|].
  destruct (blank_required_field_is_missing ascii_only
              (py "a@b.com") (py "   ") (py "") (py "Smith") eq_refl)
    as (_ & _ & _ & _ & Hfirst & _).
  apply Hfirst. reflexivity.
Defined.

Section Precedence.
Variable ucd : Py.unicode_data.

Lemma single_char_first_or_last_iff (name name_raw : str) :
  single_char_first_or_last ucd name name_raw = true <->
  length name = 1 /\ Py.islower ucd name = false
  /\ is_allowed_single_initial (Some name_raw) = false.
Proof.
  unfold single_char_first_or_last.
  rewrite !andb_true_iff, !negb_true_iff, Nat.eqb_eq. tauto.
Qed.

Lemma single_char_middle_iff (middle_raw : str) :
  let middle := normalize_space (Some middle_raw) in
  single_char_middle ucd middle middle_raw = true <->
  length middle = 1 /\ Py.islower ucd middle = false
  /\ is_allowed_single_initial (Some middle_raw) = false.
Proof.
  intros middle. unfold single_char_middle.
  rewrite !andb_true_iff, !negb_true_iff, Nat.eqb_eq.
  pose proof (single_char_raw_truthy middle_raw). tauto.
Qed.

Lemma single_lowercase_iff (name : str) :
  single_lowercase ucd name = true <->
  length name = 1 /\ Py.islower ucd name = true.
Proof.
  unfold single_lowercase. now rewrite andb_true_iff, Nat.eqb_eq.
Qed.

(** Once a casing message is raised and the presence checks passed, the
    run shows the casing messages and not the single-character one. *)
Lemma casing_shown (email_raw first_raw middle_raw last_raw msg : str) :
  presence_of email_raw first_raw last_raw = [] ->
  List.In msg (casing_of ucd first_raw middle_raw last_raw) ->
  let run := app ucd true email_raw first_raw middle_raw last_raw in
  List.In (Error msg) (rendered run)
  /\ ~ List.In (Error single_char_msg) (rendered run).
Proof.
  intros Hp Hin run. unfold run. rewrite run_eq, Hp.
  destruct (casing_of ucd first_raw middle_raw last_raw) as [|c cs] eqn:E;
    [destruct Hin|].
  cbn [rendered fst]. rewrite !in_map_Error. split; [exact Hin|].
  rewrite <- E. unfold casing_of. rewrite in_name_case_errors.
  pose proof case_messages_differ as (D1 & D2 & D3).
  intros [[C _]|[[C _]|[C _]]]; congruence.
Qed.

Lemma single_shown (email_raw first_raw middle_raw last_raw : str) :
  presence_of email_raw first_raw last_raw = [] ->
  let run := app ucd true email_raw first_raw middle_raw last_raw in
  List.In (Error single_char_msg) (rendered run) <->
  casing_of ucd first_raw middle_raw last_raw = []
  /\ single_of ucd first_raw middle_raw last_raw <> [].
Proof.
  intros Hp run. split.
  - intros Hin.
    destruct (casing_of ucd first_raw middle_raw last_raw) as [|c cs] eqn:E.
    + split; [reflexivity|]. intros Hs. revert Hin.
      unfold run. rewrite run_eq, Hp, E, Hs.
      apply in_success_page_no_error.
    + exfalso.
      assert (Hc : List.In c (casing_of ucd first_raw middle_raw last_raw))
        by (rewrite E; now left).
      now destruct (casing_shown email_raw first_raw middle_raw last_raw c
                      Hp Hc) as [_ N].
  - intros [Hc Hs]. unfold run. rewrite run_eq, Hp, Hc.
    destruct (single_of ucd first_raw middle_raw last_raw);
      [congruence | now left].
Qed.
End Precedence.

(** C3. For each name field: when the normalized value is one character and
    that character is lowercase, the casing message of the field is raised
    and the single-character condition of the field is off; the
    single-character condition of a field holds exactly when the normalized
    value has length one, is not lowercase, and the raw value is not the
    allowed single initial. Once the presence checks have passed, the
    raised casing message is shown and the single-character message is not;
    the single-character message is shown exactly when no casing message was
    raised and some field meets the single-character condition. *)
Theorem single_lowercase_takes_casing_error (ucd : Py.unicode_data)
    (email_raw first_raw middle_raw last_raw : str) :
  let first := normalize_space (Some first_raw) in
  let middle := normalize_space (Some middle_raw) in
  let last := normalize_space (Some last_raw) in
  let casing := casing_of ucd first_raw middle_raw last_raw in
  let run := app ucd true email_raw first_raw middle_raw last_raw in
  let shown_instead (msg : str) :=
    List.In msg casing
    /\ (presence_of email_raw first_raw last_raw = [] ->
        List.In (Error msg) (rendered run)
        /\ ~ List.In (Error single_char_msg) (rendered run)) in
  (length first = 1 -> Py.islower ucd first = true ->
   shown_instead msg_first_case
   /\ single_char_first_or_last ucd first first_raw = false)
  /\ (length middle = 1 -> Py.islower ucd middle = true ->
      shown_instead msg_middle_case
      /\ single_char_middle ucd middle middle_raw = false)
  /\ (length last = 1 -> Py.islower ucd last = true ->
      shown_instead msg_last_case
      /\ single_char_first_or_last ucd last last_raw = false)
  /\ (single_char_first_or_last ucd first first_raw = true <->
      length first = 1 /\ Py.islower ucd first = false
      /\ is_allowed_single_initial (Some first_raw) = false)
  /\ (single_char_middle ucd middle middle_raw = true <->
      length middle = 1 /\ Py.islower ucd middle = false
      /\ is_allowed_single_initial (Some middle_raw) = false)
  /\ (single_char_first_or_last ucd last last_raw = true <->
      length last = 1 /\ Py.islower ucd last = false
      /\ is_allowed_single_initial (Some last_raw) = false)
  /\ (presence_of email_raw first_raw last_raw = [] ->
      (List.In (Error single_char_msg) (rendered run) <->
       casing = []
       /\ single_char_first_or_last ucd first first_raw
          || single_char_middle ucd middle middle_raw
          || single_char_first_or_last ucd last last_raw = true)).
Proof.
  intros first middle last casing run shown_instead.
  assert (Shown : forall msg, List.In msg casing -> shown_instead msg).
  { intros msg Hin. split; [exact Hin|]. intros Hp.
    now apply casing_shown. }
  pose proof (single_char_first_or_last_iff ucd first first_raw) as F.
  pose proof (single_char_middle_iff ucd middle_raw) as M.
  pose proof (single_char_first_or_last_iff ucd last last_raw) as L.
  cbv zeta in M. fold middle in M.
  split; [|split; [|split]].
  - intros H1 H2. split.
    + apply Shown, in_name_case_errors. left. split; [reflexivity|].
      apply orb_true_iff. left. now apply single_lowercase_iff.
    + apply not_true_is_false. intros C. apply F in C. destruct C as (_ & C & _).
      congruence.
  - intros H1 H2. split.
    + apply Shown, in_name_case_errors. right; left. split; [reflexivity|].
      apply orb_true_iff. left.
      rewrite (single_char_raw_truthy middle_raw H1).
      now apply single_lowercase_iff.
    + apply not_true_is_false. intros C. apply M in C. destruct C as (_ & C & _).
      congruence.
  - intros H1 H2. split.
    + apply Shown, in_name_case_errors. right; right. split; [reflexivity|].
      apply orb_true_iff. left. now apply single_lowercase_iff.
    + apply not_true_is_false. intros C. apply L in C. destruct C as (_ & C & _).
      congruence.
  - split; [exact F|]. split; [exact M|]. split; [exact L|].
    intros Hp. unfold run. rewrite (single_shown ucd _ _ _ _ Hp).
    fold casing. unfold single_of. fold first middle last.
    split; intros [Hc Hs]; (split; [exact Hc|]).
    + apply not_false_iff_true. intros C. apply Hs.
      now apply single_char_errors_nil.
    + intros C. apply single_char_errors_nil in C. congruence.
Qed.

(** C9. On a successful run the script shown is the fixed text followed by
    the greeting statement, in which each of the four values stands as a SQL
    string literal: a single quote, the value with every single quote
    doubled, a single quote. Reading the statement back as SQL gives the
    four values again, and ["O'Brien"] is written ['O''Brien']. *)
Theorem greeting_values_are_sql_literals (ucd : Py.unicode_data)
    (email_raw first_raw middle_raw last_raw : str)
    (Hok : finished (app ucd true email_raw first_raw middle_raw last_raw)
           = true) :
  let literal (v : str) := [quote] ++ doubled v ++ [quote] in
  let statement :=
    py "select util_db.public.greeting("
    ++ literal (normalize_space (Some email_raw)) ++ py ", "
    ++ literal first_raw ++ py ", "
    ++ literal middle_raw ++ py ", "
    ++ literal last_raw
    ++ py ");" in
  List.In (Code (script_head ++ statement ++ newline))
    (rendered (app ucd true email_raw first_raw middle_raw last_raw))
  /\ (forall v, sql_string_literal v = literal v)
  /\ read_greeting statement
     = Some (normalize_space (Some email_raw), first_raw, middle_raw, last_raw)
  /\ sql_string_literal (py "O'Brien") = py "'O''Brien'".
Proof.
  intros literal statement.
  apply run_finished in Hok as (_ & _ & _ & ->).
  assert (G : statement = greeting_call_sql (normalize_space (Some email_raw))
                            first_raw middle_raw last_raw).
  { unfold greeting_call_sql. now rewrite !sql_string_literal_eq. }
  split; [|split; [|split; [|reflexivity]]].
  - unfold success_page, greeting_of. rewrite sql_out_greeting, <- G.
    right; right; left. reflexivity.
  - apply sql_string_literal_eq.
  - rewrite G. apply read_greeting_call_sql.
Qed.

Lemma greeting_values_are_sql_literals_witness :
  finished (app ascii_only true (py "a@b.com") (py "Kay") (py "")
              (py "O'Brien")) = true
  /\ List.In
       (Code (script_head
              ++ py "select util_db.public.greeting('a@b.com', 'Kay', '', 'O''Brien');"
              ++ newline))
       (rendered (app ascii_only true (py "a@b.com") (py "Kay") (py "")
                    (py "O'Brien"))).
Proof.
  split; [reflexivity|].
  apply (greeting_values_are_sql_literals ascii_only
           (py "a@b.com") (py "Kay") (py "") (py "O'Brien") eq_refl).
Defined.

(** C1, as the specification states it, fails: with the email typed with a
    leading space, [" a@b.com"], and the names ["John"], [""], ["Smith"], the
    run succeeds and the statement carries ['a@b.com'], not [' a@b.com']. *)
Lemma greeting_email_is_not_raw :
  ~ (forall (ucd : Py.unicode_data)
            (email_raw first_raw middle_raw last_raw : str),
       finished (app ucd true email_raw first_raw middle_raw last_raw) = true ->
       List.In
         (Code (sql_out
                  (greeting_call_sql email_raw first_raw middle_raw last_raw)))
         (rendered (app ucd true email_raw first_raw middle_raw last_raw))).
Proof.
  intros claim.
  specialize (claim ascii_only (py " a@b.com") (py "John") [] (py "Smith")
                eq_refl).
  destruct (run_finished ascii_only (py " a@b.com") (py "John") []
              (py "Smith") eq_refl) as (_ & _ & _ & R).
  rewrite R in claim. unfold success_page, greeting_of in claim.
  rewrite !sql_out_greeting in claim.
  destruct claim as [C|[C|[C|[C|[C|[]]]]]];
    [discriminate C | discriminate C | | discriminate C | discriminate C].
  apply Code_inj, app_inv_head, app_inv_tail in C.
  apply (f_equal read_greeting) in C.
  rewrite !read_greeting_call_sql in C. discriminate C.
Qed.

(** C1, amended. On a successful run the greeting statement interpolates
    the first, middle and last name exactly as typed, and the email in its
    normalized form: the script shown and offered for download is the fixed
    text followed by the statement built from these four values, and these
    are the values read back from it. *)
Theorem greeting_uses_raw_names_and_normalized_email (ucd : Py.unicode_data)
    (email_raw first_raw middle_raw last_raw : str)
    (Hok : finished (app ucd true email_raw first_raw middle_raw last_raw)
           = true) :
  let statement :=
    greeting_call_sql (normalize_space (Some email_raw))
      first_raw middle_raw last_raw in
  rendered (app ucd true email_raw first_raw middle_raw last_raw)
  = success_page (script_head ++ statement ++ newline)
  /\ read_greeting statement
     = Some (normalize_space (Some email_raw), first_raw, middle_raw, last_raw).
Proof.
  intros statement.
  apply run_finished in Hok as (_ & _ & _ & ->).
  unfold greeting_of. rewrite sql_out_greeting.
  split; [reflexivity | apply read_greeting_call_sql].
Qed.

Lemma greeting_uses_raw_names_and_normalized_email_witness :
  finished (app ascii_only true (py " a@b.com ") (py "K ") (py "")
              (py "Smith")) = true
  /\ read_greeting
       (greeting_call_sql (normalize_space (Some (py " a@b.com ")))
          (py "K ") (py "") (py "Smith"))
     = Some (py "a@b.com", py "K ", py "", py "Smith").
Proof.
  split; [reflexivity|].
  apply (greeting_uses_raw_names_and_normalized_email ascii_only
           (py " a@b.com ") (py "K ") (py "") (py "Smith") eq_refl).
Defined.

(* ===================================================================== *)
(** ** The end-to-end scenarios of the specification *)
(* ===================================================================== *)

Example scenario_success (ucd : Py.unicode_data) :
  rendered (app ucd true (py "a@b.com") (py "John") (py "") (py "Smith"))
  = success_page
      (script_head
       ++ py "select util_db.public.greeting('a@b.com', 'John', '', 'Smith');"
       ++ newline).
Proof. vm_compute. reflexivity. Qed.

Example scenario_all_lowercase (ucd : Py.unicode_data) :
  app ucd true (py "a@b.com") (py "john") (py "") (py "Smith")
  = ([Error msg_first_case], None).
Proof. vm_compute. reflexivity. Qed.

Example scenario_single_initial_workaround (ucd : Py.unicode_data) :
  rendered (app ucd true (py "a@b.com") (py "K ") (py "") (py "Smith"))
  = success_page
      (script_head
       ++ py "select util_db.public.greeting('a@b.com', 'K ', '', 'Smith');"
       ++ newline).
Proof. vm_compute. reflexivity. Qed.

Example scenario_single_lowercase (ucd : Py.unicode_data) :
  app ucd true (py "a@b.com") (py "k ") (py "") (py "Smith")
  = ([Error msg_first_case], None).
Proof. vm_compute. reflexivity. Qed.

Example scenario_single_character (ucd : Py.unicode_data) :
  app ucd true (py "a@b.com") (py "A") (py "") (py "Smith")
  = ([Error single_char_msg], None).
Proof. vm_compute. reflexivity. Qed.

Example scenario_not_submitted (ucd : Py.unicode_data) (e f m l : str) :
  app ucd false e f m l
  = ([Info (py "Fill out the form and click **Generate SQL**.") info_icon],
     None).
Proof. reflexivity. Qed.

(* ===================================================================== *)
(** ** Further properties: [normalize_space] *)
(* ===================================================================== *)

Section NormalizeMore.
Import Py.

Lemma filter_nonspace_squeeze b (s : str) :
  filter nonspace (squeeze b s) = filter nonspace s.
Proof.
  revert b. induction s as [|c t IH]; intros b; [reflexivity|].
  cbn [squeeze filter]. unfold nonspace at 2.
  destruct (isspace c) eqn:E; cbn [negb].
  - destruct b; [apply IH|]. cbn [filter]. apply IH.
  - cbn [filter]. unfold nonspace at 1. rewrite E. cbn [negb].
    f_equal. apply IH.
Qed.

Lemma filter_nonspace_drop_while (s : str) :
  filter nonspace (drop_while isspace s) = filter nonspace s.
Proof.
  induction s as [|c t IH]; [reflexivity|].
  cbn [drop_while]. destruct (isspace c) eqn:E; [|reflexivity].
  cbn [filter]. unfold nonspace at 2. now rewrite E.
Qed.

Lemma filter_nonspace_rstrip (s : str) :
  filter nonspace (rstrip s) = filter nonspace s.
Proof.
  induction s as [|c t IH]; [reflexivity|].
  rewrite rstrip_cons. cbn [filter]. rewrite <- IH.
  destruct (rstrip t) as [|d r]; [|reflexivity].
  unfold nonspace. destruct (isspace c) eqn:E; cbn; rewrite ?E; reflexivity.
Qed.

Lemma length_squeeze b (s : str) : length (squeeze b s) <= length s.
Proof.
  revert b. induction s as [|c t IH]; intros b; [reflexivity|].
  cbn [squeeze]. destruct (isspace c); [destruct b|]; cbn [length].
  - specialize (IH true). lia.
  - specialize (IH true). lia.
  - specialize (IH false). lia.
Qed.

Lemma length_strip (s : str) : length (strip s) <= length s.
Proof.
  unfold strip, rstrip, lstrip. rewrite length_rev.
  pose proof (length_drop_while isspace (rev (drop_while isspace s))) as A.
  rewrite length_rev in A. pose proof (length_drop_while isspace s). lia.
Qed.

Lemma length_normalize_space (s : str) :
  length (normalize_space (Some s)) <= length s.
Proof.
  rewrite normalize_space_eq.
  pose proof (length_squeeze false (strip s)). pose proof (length_strip s).
  lia.
Qed.
End NormalizeMore.

(** X1. [normalize_space] neither drops, changes nor reorders a character
    that is not whitespace, and never makes the value longer: it only
    removes or replaces whitespace. *)
Theorem normalize_space_keeps_characters (value : option str) :
  filter nonspace (normalize_space value)
  = filter nonspace (Py.or_else value [])
  /\ length (normalize_space value) <= length (Py.or_else value []).
Proof.
  destruct value as [s|]; [|split; reflexivity].
  rewrite or_else_some. split; [|apply length_normalize_space].
  rewrite normalize_space_eq, filter_nonspace_squeeze.
  unfold Py.strip, Py.lstrip.
  now rewrite filter_nonspace_rstrip, filter_nonspace_drop_while.
Qed.

(** X2. The values [normalize_space] leaves unchanged are exactly those
    in normal form: no whitespace at either end, and every whitespace
    character a single space followed by a character that is not
    whitespace. Every result of [normalize_space] is in that form. *)
Theorem normalize_space_fixed_points (s : str) (value : option str) :
  (normalize_space (Some s) = s <-> normalized s = true)
  /\ normalized (normalize_space value) = true.
Proof.
  split; [|apply normalize_space_normalized].
  split; [|apply normalize_space_fixed].
  intros E. rewrite <- E. apply normalize_space_normalized.
Qed.

(** X3. A required-field message is raised exactly for a blank raw value
    (empty or whitespace only): for the email, the first name and the last
    name alike; and [normalize_space] gives the empty string exactly for
    blank input. *)
Theorem required_message_iff_blank (email_raw first_raw last_raw : str) :
  (List.In msg_email_required (presence_of email_raw first_raw last_raw)
   <-> forallb Py.isspace email_raw = true)
  /\ (List.In msg_first_required (presence_of email_raw first_raw last_raw)
      <-> forallb Py.isspace first_raw = true)
  /\ (List.In msg_last_required (presence_of email_raw first_raw last_raw)
      <-> forallb Py.isspace last_raw = true)
  /\ (forall s : str,
        normalize_space (Some s) = [] <-> forallb Py.isspace s = true).
Proof.
  assert (T : forall raw : str,
            Py.truthy (normalize_space (Some raw)) = false
            <-> forallb Py.isspace raw = true).
  { intros raw. rewrite normalize_space_truthy.
    destruct (forallb Py.isspace raw); cbn; split; congruence. }
  unfold presence_of. rewrite !in_errors, <- !T.
  split; [|split; [|split]].
  - split; [|tauto].
    intros [[_ H]|[[H _]|[[H _]|[H _]]]]; [exact H | | |]; discriminate H.
  - split; [|tauto].
    intros [[H _]|[[H _]|[[_ H]|[H _]]]]; [| |exact H|]; discriminate H.
  - split; [|tauto].
    intros [[H _]|[[H _]|[[H _]|[_ H]]]]; [| | |exact H]; discriminate H.
  - intros s. rewrite <- T.
    destruct (normalize_space (Some s)); cbn; split; congruence.
Qed.

(* ===================================================================== *)
(** ** Further properties: the email pattern *)
(* ===================================================================== *)

Section EmailMore.
Import Py.

Lemma email_word_nonspace (w : str) :
  email_word w -> forallb nonspace w = true.
Proof.
  intros [_ H]. apply forallb_forall. intros c Hc.
  unfold nonspace. now rewrite (proj1 (H c Hc)).
Qed.

Lemma email_word_no_at (w : str) :
  email_word w -> count_occ N.eq_dec w 0x40%N = 0.
Proof.
  intros [_ H]. apply count_occ_not_In. intros Hin.
  now destruct (H _ Hin) as [_ N].
Qed.

Lemma email_word_length (w : str) : email_word w -> 1 <= length w.
Proof. intros [H _]. destruct w; [congruence | cbn; lia]. Qed.

Lemma email_shape_nonspace (s : str) :
  email_shape s -> forallb nonspace s = true.
Proof.
  intros (l & d & t & Hl & Hd & Ht & ->).
  rewrite !forallb_app.
  repeat (apply andb_true_intro; split);
    solve [reflexivity | now apply email_word_nonspace].
Qed.

Lemma not_email_shape_newline (s : str) : ~ email_shape (s ++ newline).
Proof.
  intros H. apply email_shape_nonspace in H.
  rewrite forallb_app in H. apply andb_prop in H as [_ H]. discriminate H.
Qed.

Lemma squeeze_nonspace (s : str) :
  forallb nonspace s = true -> squeeze false s = s.
Proof.
  induction s as [|c t IH]; [reflexivity|]. cbn [forallb squeeze].
  intros H. apply andb_prop in H as [Hc Ht].
  unfold nonspace in Hc. apply negb_true_iff in Hc. rewrite Hc.
  now rewrite IH.
Qed.

Lemma nonspace_before_squeeze (s : str) :
  forallb nonspace (squeeze false s) = true -> forallb nonspace s = true.
Proof.
  induction s as [|c t IH]; [reflexivity|]. cbn [squeeze].
  destruct (isspace c) eqn:E; cbn [forallb].
  - intros H. apply andb_prop in H as [H _]. discriminate H.
  - intros H. apply andb_prop in H as [_ H].
    unfold nonspace at 1. rewrite E. now rewrite IH.
Qed.
End EmailMore.

(** X4. On an arbitrary string, [EMAIL_RE.match] succeeds exactly on the
    email shape and on the email shape followed by one newline, the one
    character that [$] lets pass at the end; a string of the shape followed
    by two newlines is rejected. *)
Theorem EMAIL_RE_tolerates_one_final_newline (s : str) :
  (is_some (Re.match_ EMAIL_RE s) = true <->
   email_shape s \/ exists s', s = s' ++ newline /\ email_shape s')
  /\ (email_shape s ->
      is_some (Re.match_ EMAIL_RE (s ++ newline)) = true
      /\ is_some (Re.match_ EMAIL_RE ((s ++ newline) ++ newline)) = false).
Proof.
  split; [apply EMAIL_RE_match_any|]. intros Hs. split.
  - apply EMAIL_RE_match_any. right. now exists s.
  - apply not_true_is_false. intros H. apply EMAIL_RE_match_any in H.
    destruct H as [H|(s' & E & H)].
    + now apply not_email_shape_newline in H.
    + apply app_inj_tail in E as [<- _].
      now apply not_email_shape_newline in H.
Qed.

Lemma accepted_email_facts (email_raw : str)
    (Hok : is_some (Re.match_ EMAIL_RE (normalize_space (Some email_raw)))
           = true) :
  let email := normalize_space (Some email_raw) in
  email = Py.strip email_raw
  /\ forallb nonspace email = true
  /\ count_occ N.eq_dec email 0x40%N = 1
  /\ 5 <= length email.
Proof.
  intros email.
  apply EMAIL_RE_match_clean in Hok; [|apply normalize_space_ends_clean].
  fold email in Hok. pose proof (email_shape_nonspace _ Hok) as Hn.
  split; [|split; [exact Hn|]].
  - unfold email in *. rewrite normalize_space_eq in *.
    now apply squeeze_nonspace, nonspace_before_squeeze.
  - destruct Hok as (l & d & t & Hl & Hd & Ht & ->). split.
    + rewrite !count_occ_app.
      pose proof (email_word_no_at l Hl) as Al.
      pose proof (email_word_no_at d Hd) as Ad.
      pose proof (email_word_no_at t Ht) as At.
      unfold Py.char in *. cbn. lia.
    + rewrite !length_app. cbn [length].
      pose proof (email_word_length _ Hl). pose proof (email_word_length _ Hd).
      pose proof (email_word_length _ Ht). unfold Py.str, Py.char in *. lia.
Qed.

(** X5. An email that passes the shape check contains no whitespace and
    exactly one at sign, is at least five characters long, and is the raw
    input with the whitespace at its ends removed: for an accepted email,
    normalizing changes nothing inside it. *)
Theorem accepted_email_is_stripped_raw (email_raw : str)
    (Hok : is_some (Re.match_ EMAIL_RE (normalize_space (Some email_raw)))
           = true) :
  let email := normalize_space (Some email_raw) in
  email = Py.strip email_raw
  /\ forallb nonspace email = true
  /\ count_occ N.eq_dec email 0x40%N = 1
  /\ 5 <= length email.
Proof. exact (accepted_email_facts email_raw Hok). Qed.

Lemma accepted_email_is_stripped_raw_witness :
  is_some (Re.match_ EMAIL_RE (normalize_space (Some (py "  x@y.com "))))
  = true
  /\ normalize_space (Some (py "  x@y.com ")) = Py.strip (py "  x@y.com ").
Proof.
  split; [reflexivity|].
  now destruct (accepted_email_is_stripped_raw (py "  x@y.com ") eq_refl)
    as [H _].
Defined.

(* ===================================================================== *)
(** ** Further properties: SQL literals and the statement *)
(* ===================================================================== *)

Lemma length_doubled (v : str) :
  length (doubled v) = length v + count_occ N.eq_dec v quote.
Proof.
  induction v as [|c v IH]; [reflexivity|].
  unfold doubled in *. cbn [flat_map count_occ].
  rewrite length_app, IH.
  destruct (N.eqb_spec c quote) as [->|Hc].
  - destruct (N.eq_dec quote quote); [cbn; lia | congruence].
  - destruct (N.eq_dec c quote); [congruence | cbn; lia].
Qed.

(** X6. A value written by [sql_string_literal] and read back as a SQL
    string literal gives the same value, with whatever follows the literal
    left over, so a quote inside a value cannot end the literal early; two
    values with the same literal are equal; and the literal is longer than
    the value by two plus the number of quotes in it. *)
Theorem sql_string_literal_round_trip (v rest : str) :
  (hd_error rest <> Some quote ->
   read_literal (sql_string_literal v ++ rest) = Some (v, rest))
  /\ (forall w, sql_string_literal v = sql_string_literal w -> v = w)
  /\ length (sql_string_literal v)
     = length v + count_occ N.eq_dec v quote + 2.
Proof.
  split; [apply read_literal_sql_string_literal|]. split.
  - intros w E.
    assert (R : read_literal (sql_string_literal v ++ [])
                = read_literal (sql_string_literal w ++ []))
      by now rewrite E.
    rewrite !read_literal_sql_string_literal in R by discriminate.
    now injection R.
  - rewrite sql_string_literal_eq, !length_app, length_doubled.
    cbn [length]. lia.
Qed.

(** X7. Whatever the four values are, quotes, commas and parentheses
    included, reading the greeting statement back gives exactly these four
    values; so two different submissions never give the same statement. *)
Theorem greeting_call_sql_round_trip (email first middle last : str) :
  read_greeting (greeting_call_sql email first middle last)
  = Some (email, first, middle, last)
  /\ (forall email' first' middle' last',
        greeting_call_sql email first middle last
        = greeting_call_sql email' first' middle' last' ->
        email = email' /\ first = first' /\ middle = middle'
        /\ last = last').
Proof.
  split; [apply read_greeting_call_sql|].
  intros e' f' m' l' E. apply (f_equal read_greeting) in E.
  rewrite !read_greeting_call_sql in E. now injection E.
Qed.

(** X8. For any four values the generated script is the fixed text, the
    greeting statement and one newline: the [strip] of line 202 removes
    nothing else, not even whitespace at the end of the last value, and
    the script starts with the [--!jinja] marker. *)
Theorem generated_script_layout (email first middle last : str) :
  let statement := greeting_call_sql email first middle last in
  sql_out statement = script_head ++ statement ++ newline
  /\ Py.is_prefix (py "--!jinja") (sql_out statement) = true
  /\ length (sql_out statement)
     = length script_head + length statement + 1.
Proof.
  intros statement. unfold statement. rewrite sql_out_greeting.
  split; [reflexivity|]. split; [reflexivity|].
  rewrite !length_app. unfold newline. cbn [length].
  unfold Py.str, Py.char. lia.
Qed.

(* ===================================================================== *)
(** ** Further properties: the name checks *)
(* ===================================================================== *)

Ltac n_cases :=
  repeat match goal with
    | |- context [(?a <=? ?b)%N] => destruct (N.leb_spec a b); try lia
    | |- context [(?a <? ?b)%N] => destruct (N.ltb_spec a b); try lia
    | |- context [(?a =? ?b)%N] => destruct (N.eqb_spec a b); try lia
    end;
  try reflexivity.

Section NamesMore.
Variable ucd : Py.unicode_data.

Lemma ascii_upper_classes (c : Py.char) :
  (0x41 <= c <= 0x5A)%N ->
  Py.isspace c = false /\ Py.ch_islower ucd c = false
  /\ Py.ch_isupper ucd c = true.
Proof.
  intros [Hlo Hhi]. repeat split.
  - unfold Py.isspace. n_cases.
  - unfold Py.ch_islower, Py.ascii_lower. n_cases.
  - unfold Py.ch_isupper, Py.ascii_upper. n_cases.
Qed.

(** The allowed single initial normalizes to its letter. *)
Lemma allowed_initial_normalizes (raw : str) :
  is_allowed_single_initial (Some raw) = true ->
  exists c, (0x41 <= c <= 0x5A)%N /\ normalize_space (Some raw) = [c].
Proof.
  intros H. apply is_allowed_single_initial_shape in H.
  destruct H as (c & ws & -> & Hc & _ & Hws). exists c. split; [exact Hc|].
  destruct (ascii_upper_classes c Hc) as (Hs & _ & _).
  assert (W : forallb Py.isspace ws = true) by now apply forallb_forall.
  rewrite normalize_space_eq. unfold Py.strip.
  rewrite lstrip_clean by (cbn; now rewrite Hs).
  rewrite rstrip_cons_nonspace, rstrip_all by assumption.
  cbn. now rewrite Hs.
Qed.

Lemma short_name_passes_casing (name : str) :
  length name <= 1 -> looks_like_bad_name_case ucd name = false.
Proof.
  intros H. rewrite looks_like_bad_name_case_eq. cbv zeta.
  pose proof (length_normalize_space name) as A.
  pose proof (filter_length_le (Py.ch_isalpha ucd)
                (normalize_space (Some name))) as B.
  unfold letters.
  destruct (Nat.leb_spec (length (filter (Py.ch_isalpha ucd)
                                    (normalize_space (Some name)))) 1);
    [reflexivity|].
  unfold Py.str, Py.char in *. lia.
Qed.

Lemma single_lowercase_passes_casing (name : str) :
  single_lowercase ucd name = true ->
  looks_like_bad_name_case ucd name = false.
Proof.
  intros H. apply single_lowercase_iff in H as [H _].
  apply short_name_passes_casing. lia.
Qed.

Lemma name_case_errors_NoDup (first middle_raw middle last : str) :
  NoDup (name_case_errors ucd first middle_raw middle last)
  /\ length (name_case_errors ucd first middle_raw middle last) <= 3.
Proof.
  pose proof (single_lowercase_passes_casing first) as E1.
  pose proof (single_lowercase_passes_casing middle) as E2.
  pose proof (single_lowercase_passes_casing last) as E3.
  unfold name_case_errors. unfold single_lowercase in E1, E2, E3.
  rewrite <- (andb_assoc (Py.truthy middle_raw)).
  destruct ((length first =? 1) && Py.islower ucd first);
    [rewrite E1 by reflexivity
    |destruct (looks_like_bad_name_case ucd first)];
  (destruct ((length middle =? 1) && Py.islower ucd middle);
    [rewrite E2 by reflexivity
    |destruct (looks_like_bad_name_case ucd middle)]);
  (destruct ((length last =? 1) && Py.islower ucd last);
    [rewrite E3 by reflexivity
    |destruct (looks_like_bad_name_case ucd last)]);
  destruct (Py.truthy middle_raw), (Py.truthy middle); cbn;
  (split; [|lia]);
  repeat (constructor; [cbn; intuition discriminate|]); constructor.
Qed.
End NamesMore.

(** X9. The single-initial workaround works for every field: a raw value
    that [is_allowed_single_initial] accepts normalizes to its one uppercase
    letter, is not blank, and raises neither the casing message (neither
    through the single-lowercase test nor through the casing rule) nor the
    single-character message. *)
Theorem allowed_initial_passes_name_checks (ucd : Py.unicode_data)
    (raw : str) (Hallowed : is_allowed_single_initial (Some raw) = true) :
  let name := normalize_space (Some raw) in
  (exists c, (0x41 <= c <= 0x5A)%N /\ name = [c])
  /\ Py.truthy name = true
  /\ single_lowercase ucd name = false
  /\ looks_like_bad_name_case ucd name = false
  /\ single_char_first_or_last ucd name raw = false
  /\ single_char_middle ucd name raw = false.
Proof.
  intros name.
  destruct (allowed_initial_normalizes ucd raw Hallowed) as (c & Hc & E).
  destruct (ascii_upper_classes ucd c Hc) as (_ & Hl & _).
  fold name in E. split; [now exists c|]. rewrite E.
  split; [reflexivity|]. split; [cbn; now rewrite Hl|].
  split; [apply short_name_passes_casing; cbn; lia|].
  unfold single_char_first_or_last, single_char_middle.
  rewrite Hallowed. cbn [negb]. now rewrite !andb_false_r.
Qed.

Lemma allowed_initial_passes_name_checks_witness :
  is_allowed_single_initial (Some (py "K  ")) = true
  /\ looks_like_bad_name_case ascii_only
       (normalize_space (Some (py "K  "))) = false.
Proof.
  split; [reflexivity|].
  now destruct (allowed_initial_passes_name_checks ascii_only (py "K  ")
                  eq_refl) as (_ & _ & _ & H & _).
Defined.

(** X10. The two casing tests made on a field exclude each other: a
    one-character lowercase value never also fails the casing rule. So a
    casing message is never raised twice: [name_case_errors] has no
    repetition and at most three entries. *)
Theorem casing_message_raised_once (ucd : Py.unicode_data)
    (first middle_raw middle last : str) :
  (forall name : str,
     single_lowercase ucd name = true ->
     looks_like_bad_name_case ucd name = false)
  /\ NoDup (name_case_errors ucd first middle_raw middle last)
  /\ length (name_case_errors ucd first middle_raw middle last) <= 3.
Proof.
  split; [apply single_lowercase_passes_casing|].
  apply name_case_errors_NoDup.
Qed.

(** X14. [looks_like_bad_name_case] normalizes its argument itself, so it
    gives the same answer on a value and on its normalized form (the script
    passes the normalized one); and it is false for every value of at most
    one character, the empty one included, so the test [middle and ...] of
    line 118 guards nothing. *)
Theorem looks_like_bad_name_case_normalizes (ucd : Py.unicode_data)
    (value : str) :
  looks_like_bad_name_case ucd (normalize_space (Some value))
  = looks_like_bad_name_case ucd value
  /\ (length value <= 1 -> looks_like_bad_name_case ucd value = false)
  /\ Py.truthy (normalize_space (Some value))
     && looks_like_bad_name_case ucd (normalize_space (Some value))
     = looks_like_bad_name_case ucd value.
Proof.
  assert (E : looks_like_bad_name_case ucd (normalize_space (Some value))
              = looks_like_bad_name_case ucd value).
  { rewrite !looks_like_bad_name_case_eq.
    now rewrite normalize_space_idempotent. }
  split; [exact E|]. split; [apply short_name_passes_casing|].
  rewrite E. destruct (normalize_space (Some value)) eqn:N; [|reflexivity].
  cbn [Py.truthy andb]. rewrite <- E. reflexivity.
Qed.

(* ===================================================================== *)
(** ** Further properties: the run as a whole *)
(* ===================================================================== *)

Section RunMore.
Variable ucd : Py.unicode_data.




Lemma email_shape_truthy (s : str) : email_shape s -> Py.truthy s = true.
Proof.
  intros (l & d & t & [Hl _] & _ & _ & ->). destruct l; [congruence|].
  reflexivity.
Qed.

Lemma presence_of_nil (email_raw first_raw last_raw : str) :
  presence_of email_raw first_raw last_raw = [] <->
  email_shape (normalize_space (Some email_raw))
  /\ forallb Py.isspace first_raw = false
  /\ forallb Py.isspace last_raw = false.
Proof.
  pose proof (EMAIL_RE_match_clean (normalize_space (Some email_raw))
                (normalize_space_ends_clean (Some email_raw))) as M.
  pose proof (normalize_space_truthy first_raw) as Tf.
  pose proof (normalize_space_truthy last_raw) as Tl.
  rewrite nil_iff_no_member. unfold presence_of. split.
  - intros H.
    assert (He : Py.truthy (normalize_space (Some email_raw)) = true).
    { apply not_false_iff_true. intros C.
      apply (H msg_email_required), in_errors. now left. }
    split; [|split].
    + apply M, not_false_iff_true. intros C.
      apply (H msg_email_invalid), in_errors. right; left. now repeat split.
    + apply not_true_iff_false. intros C.
      apply (H msg_first_required), in_errors. right; right; left.
      split; [reflexivity|]. now rewrite Tf, C.
    + apply not_true_iff_false. intros C.
      apply (H msg_last_required), in_errors. right; right; right.
      split; [reflexivity|]. now rewrite Tl, C.
  - intros (He & Hf & Hl) x Hin. apply in_errors in Hin.
    rewrite Tf, Hf, Tl, Hl in Hin.
    rewrite (email_shape_truthy _ He), (proj2 M He) in Hin.
    destruct Hin as [[_ C]|[[_ [_ C]]|[[_ C]|[_ C]]]]; discriminate C.
Qed.

Lemma name_case_errors_nil (first middle_raw middle last : str) :
  name_case_errors ucd first middle_raw middle last = [] <->
  single_lowercase ucd first || looks_like_bad_name_case ucd first = false
  /\ (Py.truthy middle_raw && single_lowercase ucd middle)
     || (Py.truthy middle && looks_like_bad_name_case ucd middle) = false
  /\ single_lowercase ucd last || looks_like_bad_name_case ucd last = false.
Proof.
  rewrite nil_iff_no_member. split.
  - intros H. repeat split; apply not_true_is_false; intros C.
    + apply (H msg_first_case), in_name_case_errors. left. now split.
    + apply (H msg_middle_case), in_name_case_errors. right; left.
      now split.
    + apply (H msg_last_case), in_name_case_errors. right; right.
      now split.
  - intros (H1 & H2 & H3) x Hin. apply in_name_case_errors in Hin.
    destruct Hin as [[_ C]|[[_ C]|[_ C]]]; congruence.
Qed.

(** The three tests on the first or last name are all off exactly when
    the raw value is accepted. *)
Lemma first_or_last_clean (raw : str) :
  let name := normalize_space (Some raw) in
  (single_lowercase ucd name || looks_like_bad_name_case ucd name = false
   /\ single_char_first_or_last ucd name raw = false)
  <-> name_accepted ucd raw.
Proof.
  intros name. unfold name_accepted. fold name.
  unfold single_char_first_or_last, single_lowercase.
  assert (Hup : is_allowed_single_initial (Some raw) = true ->
                Py.islower ucd name = false).
  { intros A. destruct (allowed_initial_normalizes ucd raw A) as (c & Hc & E).
    destruct (ascii_upper_classes ucd c Hc) as (_ & Hl & _).
    unfold name. rewrite E. exact Hl. }
  clearbody name.
  destruct (looks_like_bad_name_case ucd name),
    (Nat.eqb_spec (length name) 1) as [L|L],
    (is_allowed_single_initial (Some raw)) eqn:A,
    (Py.islower ucd name) eqn:I;
    cbn [andb orb negb];
    try (specialize (Hup eq_refl); discriminate Hup);
    intuition (try congruence).
Qed.

Lemma middle_clean (raw : str) :
  let name := normalize_space (Some raw) in
  ((Py.truthy raw && single_lowercase ucd name)
   || (Py.truthy name && looks_like_bad_name_case ucd name) = false
   /\ single_char_middle ucd name raw = false)
  <-> name_accepted ucd raw.
Proof.
  intros name. rewrite <- first_or_last_clean. fold name.
  unfold single_char_middle, single_char_first_or_last.
  destruct raw as [|c t].
  - subst name. cbn. tauto.
  - clearbody name. cbn [Py.truthy andb].
    destruct (Py.truthy name) eqn:T; [tauto|].
    destruct name; [|discriminate T].
    rewrite (short_name_passes_casing ucd []) by (cbn; lia). tauto.
Qed.

Lemma finished_iff (email_raw first_raw middle_raw last_raw : str) :
  finished (app ucd true email_raw first_raw middle_raw last_raw) = true <->
  presence_of email_raw first_raw last_raw = []
  /\ casing_of ucd first_raw middle_raw last_raw = []
  /\ single_of ucd first_raw middle_raw last_raw = [].
Proof.
  split.
  - intros H. apply run_finished in H. tauto.
  - intros (H1 & H2 & H3). now rewrite run_eq, H1, H2, H3.
Qed.
Lemma submission_succeeds_shape
    (email_raw first_raw middle_raw last_raw : str) :
  finished (app ucd true email_raw first_raw middle_raw last_raw) = true ->
  email_shape (normalize_space (Some email_raw)).
Proof.
  intros H. apply finished_iff in H as (H & _ & _).
  now apply presence_of_nil in H.
Qed.
End RunMore.

(** X12. A submitted form gets its script exactly when the normalized
    email has the email shape, the first and the last name are not blank,
    and each of the three names is accepted: it passes the casing rule and,
    if it normalizes to one character, its raw value is an uppercase letter
    followed by whitespace. (The middle name may be blank.) *)
Theorem submission_succeeds_iff (ucd : Py.unicode_data)
    (email_raw first_raw middle_raw last_raw : str) :
  finished (app ucd true email_raw first_raw middle_raw last_raw) = true <->
  email_shape (normalize_space (Some email_raw))
  /\ forallb Py.isspace first_raw = false
  /\ forallb Py.isspace last_raw = false
  /\ name_accepted ucd first_raw
  /\ name_accepted ucd middle_raw
  /\ name_accepted ucd last_raw.
Proof.
  rewrite finished_iff, presence_of_nil.
  unfold casing_of, single_of.
  rewrite name_case_errors_nil, single_char_errors_nil, !orb_false_iff.
  rewrite <- (first_or_last_clean ucd first_raw).
  rewrite <- (middle_clean ucd middle_raw).
  rewrite <- (first_or_last_clean ucd last_raw).
  cbv zeta. rewrite !orb_false_iff. tauto.
Qed.

(** X13. A middle name of whitespace only is validated like an empty one:
    the casing and single-character lists are the same, so the run stops
    with the same messages or succeeds alike. On success the middle name is
    still written into the statement as typed, whitespace included. *)
Theorem blank_middle_is_validated_as_empty (ucd : Py.unicode_data)
    (email_raw first_raw middle_raw last_raw : str)
    (Hblank : forallb Py.isspace middle_raw = true) :
  casing_of ucd first_raw middle_raw last_raw
  = casing_of ucd first_raw [] last_raw
  /\ single_of ucd first_raw middle_raw last_raw
     = single_of ucd first_raw [] last_raw
  /\ finished (app ucd true email_raw first_raw middle_raw last_raw)
     = finished (app ucd true email_raw first_raw [] last_raw)
  /\ (finished (app ucd true email_raw first_raw middle_raw last_raw) = false
      -> app ucd true email_raw first_raw middle_raw last_raw
         = app ucd true email_raw first_raw [] last_raw)
  /\ (finished (app ucd true email_raw first_raw middle_raw last_raw) = true
      -> read_greeting
           (greeting_of email_raw first_raw middle_raw last_raw)
         = Some (normalize_space (Some email_raw), first_raw, middle_raw,
                 last_raw)).
Proof.
  assert (N : normalize_space (Some middle_raw) = []).
  { pose proof (normalize_space_truthy middle_raw) as T.
    rewrite Hblank in T. now destruct (normalize_space (Some middle_raw)). }
  assert (C : forall m' : str, normalize_space (Some m') = [] ->
              casing_of ucd first_raw middle_raw last_raw
              = casing_of ucd first_raw m' last_raw).
  { intros m' N'. unfold casing_of, name_case_errors. rewrite N, N'.
    cbn [length Nat.eqb]. rewrite !andb_false_r. reflexivity. }
  assert (S : forall m' : str, normalize_space (Some m') = [] ->
              single_of ucd first_raw middle_raw last_raw
              = single_of ucd first_raw m' last_raw).
  { intros m' N'. unfold single_of, single_char_errors, single_char_middle.
    rewrite N, N'. cbn [length Nat.eqb]. rewrite !andb_false_r.
    reflexivity. }
  specialize (C [] eq_refl). specialize (S [] eq_refl).
  split; [exact C|]. split; [exact S|].
  rewrite !run_eq, C, S.
  destruct (presence_of email_raw first_raw last_raw),
    (casing_of ucd first_raw [] last_raw),
    (single_of ucd first_raw [] last_raw);
    cbn [finished snd is_some];
    (split; [reflexivity|]); (split; [try reflexivity; discriminate|]);
    intros _; apply read_greeting_call_sql.
Qed.

Lemma blank_middle_is_validated_as_empty_witness :
  forallb Py.isspace (py "  ") = true
  /\ read_greeting (greeting_of (py "a@b.com") (py "John") (py "  ")
                     (py "Smith"))
     = Some (py "a@b.com", py "John", py "  ", py "Smith").
Proof.
  split; [reflexivity|].
  destruct (blank_middle_is_validated_as_empty ascii_only (py "a@b.com")
              (py "John") (py "  ") (py "Smith") eq_refl)
    as (_ & _ & _ & _ & H).
  apply H. reflexivity.
Defined.



(** X16. On a successful run the email written into the statement is the
    raw email with the whitespace at its ends removed, and it contains no
    whitespace at all. *)
Theorem successful_statement_strips_email (ucd : Py.unicode_data)
    (email_raw first_raw middle_raw last_raw : str)
    (Hok : finished (app ucd true email_raw first_raw middle_raw last_raw)
           = true) :
  rendered (app ucd true email_raw first_raw middle_raw last_raw)
  = success_page
      (script_head
       ++ greeting_call_sql (Py.strip email_raw) first_raw middle_raw last_raw
       ++ newline)
  /\ forallb nonspace (Py.strip email_raw) = true.
Proof.
  pose proof (submission_succeeds_shape ucd email_raw first_raw middle_raw
                last_raw Hok) as Hs.
  apply run_finished in Hok as (_ & _ & _ & ->).
  pose proof (EMAIL_RE_match_clean (normalize_space (Some email_raw))
                (normalize_space_ends_clean (Some email_raw))) as M.
  destruct (accepted_email_facts email_raw (proj2 M Hs)) as (E & Hn & _).
  cbv zeta in E, Hn. rewrite <- E. split; [|exact Hn].
  unfold greeting_of. now rewrite sql_out_greeting.
Qed.

(** X17. Whitespace typed before a single uppercase initial defeats the
    workaround: the value still normalizes to the one letter, but
    [is_allowed_single_initial] looks at the raw value, which must begin
    with the letter, so the single-character condition holds for it. *)
Theorem leading_space_defeats_workaround (ucd : Py.unicode_data)
    (c : Py.char) (before after : str)
    (Hc : (0x41 <= c <= 0x5A)%N)
    (Hbefore : before <> [])
    (Hws1 : forallb Py.isspace before = true)
    (Hws2 : forallb Py.isspace after = true) :
  let raw := before ++ [c] ++ after in
  normalize_space (Some raw) = [c]
  /\ is_allowed_single_initial (Some raw) = false
  /\ single_char_first_or_last ucd (normalize_space (Some raw)) raw = true.
Proof.
  intros raw.
  destruct (ascii_upper_classes ucd c Hc) as (Hs & Hl & _).
  assert (N : normalize_space (Some raw) = [c]).
  { rewrite normalize_space_eq. unfold raw, Py.strip, Py.lstrip.
    rewrite drop_while_app, (drop_while_all _ _ Hws1).
    cbn [List.app Py.drop_while]. rewrite Hs.
    rewrite rstrip_cons_nonspace, rstrip_all by assumption.
    cbn. now rewrite Hs. }
  assert (A : is_allowed_single_initial (Some raw) = false).
  { apply not_true_is_false. intros H.
    apply is_allowed_single_initial_shape in H.
    destruct H as (c' & ws & E & Hc' & _).
    destruct (ascii_upper_classes ucd c' Hc') as (Hs' & _).
    unfold raw in E. destruct before as [|b before']; [congruence|].
    cbn in E. injection E as -> _. cbn in Hws1.
    rewrite Hs' in Hws1. discriminate Hws1. }
  split; [exact N|]. split; [exact A|].
  apply single_char_first_or_last_iff. rewrite N.
  split; [reflexivity|]. split; [exact Hl | exact A].
Qed.

Lemma leading_space_defeats_workaround_witness :
  normalize_space (Some (py " K ")) = py "K"
  /\ is_allowed_single_initial (Some (py " K ")) = false.
Proof.
  destruct (leading_space_defeats_workaround ascii_only 0x4B%N
              (py " ") (py " ")) as (N & A & _);
    [now split | discriminate | reflexivity | reflexivity |].
  split; [exact N | exact A].
Defined.

Lemma successful_statement_strips_email_witness :
  finished (app ascii_only true (py "  a@b.com ") (py "John") (py "")
              (py "Smith")) = true
  /\ forallb nonspace (Py.strip (py "  a@b.com ")) = true.
Proof.
  split; [reflexivity|].
  now destruct (successful_statement_strips_email ascii_only
                  (py "  a@b.com ") (py "John") (py "") (py "Smith") eq_refl)
    as [_ H].
Defined.
